(** * aimakerspace: text splitters and the in-memory vector store

    A shallow embedding of
    - [aimakerspace/text_utils.py]: [CharacterTextSplitter] and
      [RecursiveTextSplitter];
    - [aimakerspace/vectordatabase.py]: [VectorDatabase].

    Python values are modelled as follows.
    - [int] is [Z].
    - [str] is [list ascii] for the texts that are cut into chunks (the
      splitters only compare, measure and concatenate characters) and
      [string] for the keys of the store.
    - a raised exception is the [Raise] branch of [result].
    - a [dict] whose iteration order is observed is an association list
      updated in place; a [dict] that is only read by key is a [gmap]. *)

From Stdlib Require Import ZArith Ascii String List Lia DecimalString.
From stdpp Require Import gmap strings list sorting.
Import ListNotations.

Local Open Scope Z_scope.

(** ** Python preliminaries *)

Module Py.

(** A Python [str]. *)
Abbreviation str := (list ascii).

Definition s (lit : string) : str := list_ascii_of_string lit.

(** [len(x)] as a Python integer. *)
Definition len {A} (l : list A) : Z := Z.of_nat (length l).

(** The exceptions raised by the modelled code. *)
Inductive exn : Type :=
  | AssertionError (msg : string)
  | ValueError (msg : string).

Inductive result (A : Type) : Type :=
  | Ok (a : A)
  | Raise (e : exn).
Arguments Ok {A} a.
Arguments Raise {A} e.

(** Sequencing: an exception aborts what follows. *)
#[export] Instance result_bind : MBind result := fun A B k r =>
  match r with
  | Ok a => k a
  | Raise e => Raise e
  end.

(** [out.extend(f(x))] for every [x] of [l], stopping at the first
    exception. *)
Fixpoint extend_each {A B} (f : A -> result (list B)) (l : list A)
  : result (list B) :=
  match l with
  | [] => Ok []
  | x :: l' =>
      ys ← f x;
      rest ← extend_each f l';
      Ok (ys ++ rest)
  end.

(** [sep.join(parts)]. *)
Fixpoint join (sep : str) (parts : list str) : str :=
  match parts with
  | [] => []
  | [p] => p
  | p :: rest => p ++ sep ++ join sep rest
  end.

(** [text.startswith(sep)]. *)
Fixpoint startswith (sep text : str) : bool :=
  match sep, text with
  | [], _ => true
  | _ :: _, [] => false
  | a :: sep', b :: text' =>
      if Ascii.eqb a b then startswith sep' text' else false
  end.

(** [text.split(sep)] for a non-empty [sep]: the text is scanned from
    the left, every occurrence of [sep] closes the piece in progress and
    the scan resumes after the occurrence.  [skip] counts the
    characters of a matched occurrence that are still to be passed,
    [cur] holds the piece in progress, reversed. *)
Fixpoint split_scan (sep : str) (skip : nat) (cur : str) (text : str)
  : list str :=
  match text with
  | [] => [reverse cur]
  | c :: rest =>
      match skip with
      | S k => split_scan sep k cur rest
      | O =>
          if startswith sep text
          then reverse cur :: split_scan sep (length sep - 1)%nat [] rest
          else split_scan sep O (c :: cur) rest
      end
  end.

Definition str_split (text sep : str) : list str := split_scan sep O [] text.

(** Bounds of a slice [x[lo:hi]] on a sequence of length [n]: a negative
    bound counts from the end, and both are clamped to [0..n]. *)
Definition slice_bound (n i : Z) : Z :=
  if i <? 0 then Z.max 0 (i + n) else Z.min i n.

(** [x[lo:hi]]. *)
Definition slice {A} (x : list A) (lo hi : Z) : list A :=
  let n := len x in
  let lo' := slice_bound n lo in
  let hi' := slice_bound n hi in
  firstn (Z.to_nat (hi' - lo')) (skipn (Z.to_nat lo') x).

(** [x[:hi]]. *)
Definition slice_to {A} (x : list A) (hi : Z) : list A := slice x 0 hi.

(** [len(range(start, stop, step))] for [step <> 0]. *)
Definition range_len (start stop step : Z) : Z :=
  if 0 <? step then
    if start <? stop then (stop - start - 1) / step + 1 else 0
  else
    if stop <? start then (start - stop - 1) / (- step) + 1 else 0.

(** [range(start, stop, step)]; a zero step is a [ValueError]. *)
Definition range (start stop step : Z) : result (list Z) :=
  if step =? 0 then Raise (ValueError "range() arg 3 must not be zero")
  else Ok (map (fun k => start + Z.of_nat k * step)
               (seq 0 (Z.to_nat (range_len start stop step)))).

(** [max(len(x) for x in l) if l else 0]. *)
Definition max_len_or_0 {A} (l : list (list A)) : Z :=
  match l with
  | [] => 0
  | x :: rest => fold_left (fun m y => Z.max m (len y)) rest (len x)
  end.

(** [sum(len(c) for c in l)]. *)
Definition sum_len {A} (l : list (list A)) : Z :=
  fold_right (fun x m => len x + m) 0 l.

End Py.
Import Py.

(** ** Chunks with metadata *)

Module Chunk.

(** The values of a metadata dict: the splitters write integers and
    strings; whatever else a caller stored is carried along as it is. *)
Inductive value (O : Type) : Type :=
  | PyInt (n : Z)
  | PyStr (text : string)
  | PyObj (o : O).
Arguments PyInt {O} n.
Arguments PyStr {O} text.
Arguments PyObj {O} o.

(** The dict [{"text": ..., "metadata": ...}] built for every chunk. *)
Record t (O : Type) : Type :=
  mk { text : str; metadata : gmap string (value O) }.
Arguments mk {O} text metadata.
Arguments text {O} _.
Arguments metadata {O} _.

(** [f"document_{i}"]. *)
Definition document_name (i : nat) : string :=
  "document_" ++ NilEmpty.string_of_uint (Nat.to_uint i).

(** [split_texts], the same in both splitter classes, over the [split]
    of the class. *)
Definition split_texts_by (split : str → result (list str))
    (texts : list str) : result (list str) :=
  extend_each split texts.

(** [split_texts_with_metadata], the same in both splitter classes, over
    the [split] of the class. *)
Definition split_texts_with_metadata_by {O : Type}
    (split : str → result (list str)) (texts : list str)
    (metadatas : option (list (gmap string (value O))))
  : result (list (t O)) :=
  let metadatas :=
    match metadatas with
    | None =>
        map (fun i => {[ "source" := PyStr (document_name i) ]})
            (seq 0 (length texts))
    | Some given => given
    end in
  if negb (len texts =? len metadatas)
  then Raise (ValueError "Number of texts and metadatas must match")
  else
    extend_each
      (fun text_metadata =>
         chunks ← split (fst text_metadata);
         Ok (imap
               (fun chunk_idx chunk =>
                  let chunk_metadata := snd text_metadata in
                  let chunk_metadata :=
                    <["chunk_index" := PyInt (Z.of_nat chunk_idx)]> chunk_metadata in
                  let chunk_metadata :=
                    <["total_chunks" := PyInt (len chunks)]> chunk_metadata in
                  mk chunk chunk_metadata)
               chunks))
      (zip texts metadatas).

End Chunk.

(** ** [text_utils.py] *)

Definition assert_msg : string := "Chunk size must be greater than chunk overlap".

(** *** [CharacterTextSplitter] *)

Module CharacterTextSplitter.

Record t : Type := mk { chunk_size : Z; chunk_overlap : Z }.

(** [__init__(self, chunk_size, chunk_overlap)]. *)
Definition init (chunk_size chunk_overlap : Z) : result t :=
  if chunk_size >? chunk_overlap
  then Ok (mk chunk_size chunk_overlap)
  else Raise (AssertionError assert_msg).

(** [split(self, text)]. *)
Definition split (self : t) (text : str) : result (list str) :=
  idx ← range 0 (len text) (chunk_size self - chunk_overlap self);
  Ok (map (fun i => slice text i (i + chunk_size self)) idx).

(** [split_texts(self, texts)]. *)
Definition split_texts (self : t) (texts : list str) : result (list str) :=
  Chunk.split_texts_by (split self) texts.

(** [split_texts_with_metadata(self, texts, metadatas=None)]. *)
Definition split_texts_with_metadata {O : Type} (self : t) (texts : list str)
    (metadatas : option (list (gmap string (Chunk.value O))))
  : result (list (Chunk.t O)) :=
  Chunk.split_texts_with_metadata_by (split self) texts metadatas.

End CharacterTextSplitter.

(** *** [RecursiveTextSplitter] *)

Module RecursiveTextSplitter.

Record t : Type :=
  mk { chunk_size : Z; chunk_overlap : Z; separators : list str }.

Definition default_separators : list str :=
  [ s (String "010" (String "010" EmptyString));
    s (String "010" EmptyString);
    s ". ";
    s " ";
    [] ].

(** [separators or [...]]: [None] and the empty list are both falsy. *)
Definition separators_or_default (separators : option (list str)) : list str :=
  match separators with
  | None | Some [] => default_separators
  | Some l => l
  end.

(** [__init__(self, chunk_size, chunk_overlap, separators)]. *)
Definition init (chunk_size chunk_overlap : Z) (separators : option (list str))
  : result t :=
  if chunk_size >? chunk_overlap
  then Ok (mk chunk_size chunk_overlap (separators_or_default separators))
  else Raise (AssertionError assert_msg).

(** [_split_text_with_separator(self, text, separator)]. *)
Definition _split_text_with_separator (text separator : str) : list str :=
  match separator with
  | [] => map (fun c => [c]) text
  | _ :: _ => str_split text separator
  end.

(** The inner loop of [_merge_splits] that seeds the next chunk: walk
    [reversed(current_chunk)], stop at the first item that takes
    [overlap_length] above [chunk_overlap]. *)
Fixpoint take_overlap (chunk_overlap seplen : Z) (reversed_chunk : list str)
    (overlap_length : Z) (overlap_chunks : list str) : list str :=
  match reversed_chunk with
  | [] => overlap_chunks
  | item :: rest =>
      let overlap_length := overlap_length + (len item + seplen) in
      if overlap_length >? chunk_overlap then overlap_chunks
      else take_overlap chunk_overlap seplen rest overlap_length
             (item :: overlap_chunks)
  end.

(** The local variables of [_merge_splits]. *)
Record merge_state : Type :=
  mk_state { chunks : list str; current_chunk : list str; current_length : Z }.

(** One iteration of [for split in splits]. *)
Definition merge_step (self : t) (separator : str) (st : merge_state)
    (split : str) : merge_state :=
  let split_len := len split in
  let st :=
    if current_length st + split_len + len separator >? chunk_size self then
      match current_chunk st with
      | [] => st
      | _ :: _ =>
          let chunk_text := join separator (current_chunk st) in
          let overlap_chunks :=
            take_overlap (chunk_overlap self) (len separator)
              (reverse (current_chunk st)) 0 [] in
          mk_state (chunks st ++ [chunk_text]) overlap_chunks
            (sum_len overlap_chunks
             + len separator * Z.max 0 (len overlap_chunks - 1))
      end
    else st in
  let current_chunk' := current_chunk st ++ [split] in
  mk_state (chunks st) current_chunk'
    (current_length st
     + (split_len + match current_chunk' with [] => 0 | _ :: _ => len separator end)).

(** [_merge_splits(self, splits, separator)]. *)
Definition _merge_splits (self : t) (splits : list str) (separator : str)
  : list str :=
  let st := fold_left (merge_step self separator) splits (mk_state [] [] 0) in
  match current_chunk st with
  | [] => chunks st
  | _ :: _ => chunks st ++ [join separator (current_chunk st)]
  end.

(** The body of [split] for [self.separators = seps].  Every path of the
    first iteration of [for i, separator in enumerate(self.separators)]
    returns, so only [i = 0] is ever run; [return [text]] after the loop
    is reached when the list is empty.  The sub-splitter is built by
    [init] from the same sizes and [self.separators[1:]], which is not
    empty on that path, so its separators are that tail. *)
Fixpoint split_with (chunk_size chunk_overlap : Z) (seps : list str)
    (text : str) : result (list str) :=
  let self := mk chunk_size chunk_overlap seps in
  match seps with
  | [] => Ok [text]
  | separator :: rest =>
      let splits := _split_text_with_separator text separator in
      let max_split_len := max_len_or_0 splits in
      if max_split_len <=? chunk_size then
        Ok (_merge_splits self splits separator)
      else
        match rest with
        | [] => Ok (_merge_splits self splits separator)
        | _ :: _ =>
            good_splits ←
              extend_each
                (fun split =>
                   if len split <=? chunk_size then Ok [split]
                   else
                     if chunk_size >? chunk_overlap
                     then split_with chunk_size chunk_overlap rest split
                     else Raise (AssertionError assert_msg))
                splits;
            Ok (_merge_splits self good_splits separator)
        end
  end.

(** [split(self, text)]. *)
Definition split (self : t) (text : str) : result (list str) :=
  split_with (chunk_size self) (chunk_overlap self) (separators self) text.

(** [split_texts(self, texts)]. *)
Definition split_texts (self : t) (texts : list str) : result (list str) :=
  Chunk.split_texts_by (split self) texts.

(** [split_texts_with_metadata(self, texts, metadatas=None)]. *)
Definition split_texts_with_metadata {O : Type} (self : t) (texts : list str)
    (metadatas : option (list (gmap string (Chunk.value O))))
  : result (list (Chunk.t O)) :=
  Chunk.split_texts_with_metadata_by (split self) texts metadatas.

End RecursiveTextSplitter.

(** ** [vectordatabase.py] *)

(** *** Python containers used by the store *)

Module PyDict.
Section Dict.
Context {K V : Type} `{EqDecision K}.

(** A [dict] iterates in the order in which its keys were first
    inserted. *)
Definition dict : Type := list (K * V).

(** [d[k] = v]: an existing key keeps its position, a new key goes to
    the end. *)
Fixpoint setitem (d : dict) (k : K) (v : V) : dict :=
  match d with
  | [] => [(k, v)]
  | (k', v') :: d' =>
      if decide (k = k') then (k, v) :: d' else (k', v') :: setitem d' k v
  end.

(** [d.get(k, None)].  On a [defaultdict] too, [get] only looks the
    key up: the default factory belongs to [d[k]]. *)
Fixpoint get (d : dict) (k : K) : option V :=
  match d with
  | [] => None
  | (k', v') :: d' => if decide (k = k') then Some v' else get d' k
  end.

(** [d.items()] and [d.keys()]. *)
Definition items (d : dict) : list (K * V) := d.
Definition keys (d : dict) : list K := map fst d.
End Dict.
Arguments dict : clear implicits.
End PyDict.

Module PySorted.
Section Sorted.
Context {A S : Type} (key : A → S) (lt : S → S → bool).

(** Python sorts with [<] on the keys only, and stably.  A stable sort
    has one possible result, here computed by insertion. *)
Fixpoint insert_stable (x : A) (l : list A) : list A :=
  match l with
  | [] => [x]
  | y :: l' =>
      if lt (key y) (key x) then y :: insert_stable x l' else x :: l
  end.

Fixpoint sort_stable (l : list A) : list A :=
  match l with
  | [] => []
  | x :: l' => insert_stable x (sort_stable l')
  end.

(** [sorted(l, key=key, reverse=reverse)].  With [reverse=True] the
    list is reversed, sorted stably in ascending order and reversed
    again, which keeps equal keys in their original order. *)
Definition sorted (reverse_flag : bool) (l : list A) : list A :=
  if reverse_flag then reverse (sort_stable (reverse l)) else sort_stable l.
End Sorted.
End PySorted.

(** *** [VectorDatabase] *)

Module VectorDatabase.
Section Store.
(** [Vector] stands for [np.array], [Value] for the values of a
    metadata dict, [Score] for what a distance measure returns, and
    [lt] for Python's [<] on scores. *)
Context {Vector Value Score : Type} (lt : Score → Score → bool).

Abbreviation Metadata := (gmap string Value).

Record t : Type :=
  mk { vectors : PyDict.dict string Vector; metadata : gmap string Metadata }.

(** [__init__]: [defaultdict(np.array)] and [{}], both empty.  The
    embedding model is an outside service that only [search_by_text] and
    the two builders call; it has no part in the methods below. *)
Definition init : t := mk [] ∅.

(** [insert(self, key, vector, metadata=None)]. *)
Definition insert (self : t) (key : string) (vector : Vector)
    (meta : option Metadata) : t :=
  let vectors' := PyDict.setitem (vectors self) key vector in
  match meta with
  | Some m => mk vectors' (<[key := m]> (metadata self))
  | None => mk vectors' (metadata self)
  end.

(** A result of [search]: [(key, score)] or [(key, score, metadata)]. *)
Inductive hit : Type :=
  | Hit (text : string) (score : Score)
  | HitMeta (text : string) (score : Score) (meta : Metadata).

Definition hit_entry (h : hit) : string * Score :=
  match h with
  | Hit text score | HitMeta text score _ => (text, score)
  end.

(** The list [scores] built by [search]. *)
Definition scores_of (self : t) (query_vector : Vector)
    (distance_measure : Vector → Vector → Score) : list (string * Score) :=
  map (fun kv => (fst kv, distance_measure query_vector (snd kv)))
      (PyDict.items (vectors self)).

(** [search(self, query_vector, k, distance_measure, return_metadata)]. *)
Definition search (self : t) (query_vector : Vector) (k : Z)
    (distance_measure : Vector → Vector → Score) (return_metadata : bool)
  : list hit :=
  let scores := scores_of self query_vector distance_measure in
  let results := slice_to (PySorted.sorted snd lt true scores) k in
  if return_metadata then
    map (fun r => HitMeta (fst r) (snd r) (default ∅ (metadata self !! fst r)))
        results
  else map (fun r => Hit (fst r) (snd r)) results.

(** [retrieve_from_key(self, key)], with the store as it is left by
    the call. *)
Definition retrieve_from_key (self : t) (key : string) : option Vector * t :=
  (PyDict.get (vectors self) key, self).

(** What [search_by_text] returns: the results of [search], or
    [(text, metadata)] pairs, or the texts alone. *)
Inductive text_results : Type :=
  | Results (results : list hit)
  | TextsWithMetadata (pairs : list (string * Metadata))
  | Texts (texts : list string).

(** [text, score, metadata = result]: a pair cannot be unpacked into
    three names. *)
Definition unpack3 (result : hit) : Py.result (string * Score * Metadata) :=
  match result with
  | HitMeta text score meta => Ok (text, score, meta)
  | Hit _ _ => Raise (ValueError "not enough values to unpack (expected 3, got 2)")
  end.

(** [search_by_text(self, query_text, k, distance_measure,
    return_as_text, return_metadata)].  [get_embedding] is
    [self.embedding_model.get_embedding]. *)
Definition search_by_text (self : t) (get_embedding : string → Vector)
    (query_text : string) (k : Z)
    (distance_measure : Vector → Vector → Score)
    (return_as_text return_metadata : bool) : Py.result text_results :=
  let query_vector := get_embedding query_text in
  let results := search self query_vector k distance_measure return_metadata in
  if return_as_text then
    if return_metadata then
      pairs ← extend_each
                (fun result =>
                   unpacked ← unpack3 result;
                   Ok [(fst (fst unpacked), snd unpacked)])
                results;
      Ok (TextsWithMetadata pairs)
    else Ok (Texts (map (fun result => fst (hit_entry result)) results))
  else Ok (Results results).

(** The loop of [abuild_from_list] that follows the [await]:
    [embeddings] is what
    [self.embedding_model.async_get_embeddings(list_of_text)] returned,
    each embedding taken as the vector that [np.array] makes of it; the
    method returns the store. *)
Definition abuild_from_list (self : t) (list_of_text : list string)
    (embeddings : list Vector) : t :=
  fold_left
    (fun self text_embedding =>
       insert self (fst text_embedding) (snd text_embedding) None)
    (zip list_of_text embeddings) self.

(** A dict with a string under ["text"] and a dict under ["metadata"],
    as [abuild_from_list_with_metadata] reads them. *)
Record text_chunk : Type :=
  mk_text_chunk { chunk_text : string; chunk_metadata : Metadata }.

(** The texts handed to the embedding model by
    [abuild_from_list_with_metadata]. *)
Definition chunk_texts (chunks_with_metadata : list text_chunk) : list string :=
  map chunk_text chunks_with_metadata.

(** The loop of [abuild_from_list_with_metadata] that follows the
    [await]: [embeddings] is what the embedding model returned for
    [chunk_texts chunks_with_metadata]. *)
Definition abuild_from_list_with_metadata (self : t)
    (chunks_with_metadata : list text_chunk) (embeddings : list Vector) : t :=
  fold_left
    (fun self chunk_embedding =>
       insert self (chunk_text (fst chunk_embedding)) (snd chunk_embedding)
         (Some (chunk_metadata (fst chunk_embedding))))
    (zip chunks_with_metadata embeddings) self.

End Store.
Arguments t : clear implicits.
Arguments hit : clear implicits.
Arguments text_results : clear implicits.
Arguments text_chunk : clear implicits.
End VectorDatabase.

(** * Vocabulary of the properties *)

(** ** Texts *)

Definition nl : string := String "010" EmptyString.

Definition paragraphs_text : str :=
  s ("AAAA" ++ nl ++ nl ++ "BBBB" ++ nl ++ nl ++ "CCCC").

Definition two_paragraphs_text : str := s ("aaaa" ++ nl ++ nl ++ "bbbbbbbbb").

(** Every window but the last one has exactly [chunk_size] characters. *)
Definition only_final_shorter (chunk_size : Z) (windows : list str) : Prop :=
  ∀ (i : nat) w, windows !! i = Some w → (S i < length windows)%nat →
    len w = chunk_size.

(** [text] with the characters of [dropped] taken out. *)
Definition without (dropped : list ascii) (text : str) : str :=
  filter (λ c, c ∉ dropped) text.


(** The same, leaving the characters of [dropped] out of account. *)
Definition covers_input_but (dropped : list ascii) (text : str)
    (chunks : list str) : Prop :=
  without dropped text `sublist_of` without dropped (concat chunks).

(** ** Scores and records *)

(** Two scores are tied when neither is below the other. *)
Definition tied {S : Type} (lt : S → S → bool) (a b : S) : bool :=
  negb (lt a b) && negb (lt b a).

(** [x] is not below [y]: [x] may stand before [y] in descending order. *)
Definition not_below {A S : Type} (key : A → S) (lt : S → S → bool)
    (x y : A) : Prop :=
  lt (key x) (key y) = false.

(** The record held for [key]: its vector and, when there is one, its
    metadata. *)
Definition record {Vector Value : Type} (self : VectorDatabase.t Vector Value)
    (key : string) : option (Vector * option (gmap string Value)) :=
  match PyDict.get (VectorDatabase.vectors self) key with
  | Some vector => Some (vector, VectorDatabase.metadata self !! key)
  | None => None
  end.

(** A store with integer vectors: a, b, c inserted in this order, only a
    with metadata. *)
Definition sample_store : VectorDatabase.t Z string :=
  VectorDatabase.insert
    (VectorDatabase.insert
       (VectorDatabase.insert VectorDatabase.init "a" 1
          (Some {[ "source" := "doc_a" ]}))
       "b" 3 None)
    "c" 1 None.

(** ** Scores with NaN *)

(** Scores that are numbers or NaN ([None]); as for floats, [<] is
    false as soon as one side is NaN. *)
Definition nan_lt (a b : option Z) : bool :=
  match a, b with
  | Some x, Some y => x <? y
  | _, _ => false
  end.

(** A measure that, like the cosine, has no number to give for the zero
    vector. *)
Definition nan_measure (query vector : Z) : option Z :=
  if vector =? 0 then None else Some (query * vector).

(** A store in which b holds the zero vector. *)
Definition nan_store : VectorDatabase.t Z string :=
  VectorDatabase.insert
    (VectorDatabase.insert
       (VectorDatabase.insert VectorDatabase.init "a" 1 None)
       "b" 0 None)
    "c" 2 None.

(** ** Windows, chunks and stores of the further properties *)

(** The first window followed by every later window without its first
    [overlap] characters. *)
Definition without_overlaps (overlap : nat) (windows : list str) : str :=
  match windows with
  | [] => []
  | w :: rest => w ++ concat (map (drop overlap) rest)
  end.

(** [r] is a value, not an exception, and the value satisfies [P]. *)
Definition returns {A : Type} (r : result A) (P : A → Prop) : Prop :=
  ∃ a, r = Ok a ∧ P a.

(** The metadata that [split_texts_with_metadata] pairs with the texts. *)
Definition paired_metadatas {O : Type} (texts : list str)
    (metadatas : option (list (gmap string (Chunk.value O))))
  : list (gmap string (Chunk.value O)) :=
  match metadatas with
  | None => map (fun i => {[ "source" := Chunk.PyStr (Chunk.document_name i) ]})
              (seq 0 (length texts))
  | Some given => given
  end.

(** The chunk built from the piece [chunk], number [chunk_idx] of
    [chunks], and the metadata of its text. *)
Definition chunk_of {O : Type} (meta : gmap string (Chunk.value O))
    (chunks : list str) (chunk_idx : nat) (chunk : str) : Chunk.t O :=
  Chunk.mk chunk
    (<["total_chunks" := Chunk.PyInt (len chunks)]>
       (<["chunk_index" := Chunk.PyInt (Z.of_nat chunk_idx)]> meta)).

(** Chunk [c] holds its place [i] among the [n] chunks of its text. *)
Definition indexed_in_total {O : Type} (c : Chunk.t O) : Prop :=
  ∃ i n : Z,
    Chunk.metadata c !! "chunk_index" = Some (Chunk.PyInt i)
    ∧ Chunk.metadata c !! "total_chunks" = Some (Chunk.PyInt n)
    ∧ 0 <= i < n.

(** Chunk [c] was cut by [split] from one of [texts] and carries the
    metadata paired with that text under every key but the two that
    number the chunks. *)
Definition comes_from {O : Type} (split : str → result (list str))
    (texts : list str) (metadatas : list (gmap string (Chunk.value O)))
    (c : Chunk.t O) : Prop :=
  ∃ (j : nat) text meta chunks,
    texts !! j = Some text
    ∧ metadatas !! j = Some meta
    ∧ split text = Ok chunks
    ∧ Chunk.text c ∈ chunks
    ∧ ∀ key, key ≠ "chunk_index" → key ≠ "total_chunks" →
        Chunk.metadata c !! key = meta !! key.

(** A non-empty run of consecutive pieces of [splits], joined. *)
Definition joined_run (separator : str) (splits : list str) (c : str)
  : Prop :=
  ∃ before run after,
    splits = before ++ run ++ after ∧ run ≠ [] ∧ c = join separator run.

(** The stores that [__init__] and [insert] can produce. *)
Inductive built {Vector Value : Type} : VectorDatabase.t Vector Value → Prop :=
  | built_init : built VectorDatabase.init
  | built_insert self key vector meta :
      built self → built (VectorDatabase.insert self key vector meta).

(** ** Sample splitters, texts and chunks *)

Definition sample_character_splitter : CharacterTextSplitter.t :=
  CharacterTextSplitter.mk 4 1.

Definition sample_recursive_splitter : RecursiveTextSplitter.t :=
  RecursiveTextSplitter.mk 10 6 RecursiveTextSplitter.default_separators.

Definition sample_texts : list str := [s "abcdefghij"; s "xyz"].

Definition sample_metadatas : list (gmap string (Chunk.value Empty_set)) :=
  [ {[ "source" := Chunk.PyStr "a.txt" ]};
    <["num_pages" := Chunk.PyInt 2]> {[ "source" := Chunk.PyStr "b.txt" ]} ].

Definition sample_chunk_b : VectorDatabase.text_chunk string :=
  VectorDatabase.mk_text_chunk "b" {[ "source" := "doc_b" ]}.

Definition sample_chunks : list (VectorDatabase.text_chunk string) :=
  [ VectorDatabase.mk_text_chunk "x" {[ "source" := "doc_x" ]}; sample_chunk_b ].

(** ** Pieces, chunks and what the chunks hold *)

(** [x] is a contiguous part of [y]. *)
Definition part_of (x y : str) : Prop := ∃ before after, y = before ++ x ++ after.











(** One line of three sentences, longer than 10 characters. *)
Definition sentences_text : str := s "aaaa. bbbb. cccccccc".

(** * Properties of the splitters *)

(** ** Constructors *)

Section Constructors.
Import RecursiveTextSplitter.

Lemma init_ok chunk_size chunk_overlap separators :
  chunk_overlap < chunk_size →
  init chunk_size chunk_overlap separators
  = Ok (mk chunk_size chunk_overlap (separators_or_default separators)).
Proof.
  intros Hlt. unfold init.
  destruct (Z.gtb_spec chunk_size chunk_overlap); [done | lia].
Qed.

(** A splitter that was built has at least one separator, so [split]
    never comes to the [return [text]] that follows its loop. *)
Lemma init_separators_nonempty chunk_size chunk_overlap separators self :
  init chunk_size chunk_overlap separators = Ok self →
  ∃ first rest, RecursiveTextSplitter.separators self = first :: rest.
Proof.
  unfold init. destruct (_ >? _); [| done]. intros [= <-]. simpl.
  destruct separators as [[| first rest] |]; by eexists _, _.
Qed.

(** The first separator is the one used when none of its pieces is above
    [chunk_size]. *)
Lemma split_with_first_fits chunk_size chunk_overlap separator rest text :
  max_len_or_0 (_split_text_with_separator text separator) <= chunk_size →
  split_with chunk_size chunk_overlap (separator :: rest) text
  = Ok (_merge_splits (mk chunk_size chunk_overlap (separator :: rest))
          (_split_text_with_separator text separator) separator).
Proof.
  intros Hfits. cbn [split_with].
  destruct (Z.leb_spec (max_len_or_0 (_split_text_with_separator text separator))
              chunk_size); [done | lia].
Qed.
End Constructors.

(** C6: building either splitter with [chunk_overlap >= chunk_size]
    raises at once, whatever the two sizes and the separator list: the
    assertion of [__init__] fails and no splitter object is returned, so
    the sizes are never adjusted silently. *)
Theorem init_rejects_overlap_ge_size (chunk_size chunk_overlap : Z)
    (separators : option (list str)) :
  chunk_overlap >= chunk_size →
  CharacterTextSplitter.init chunk_size chunk_overlap
    = Raise (AssertionError assert_msg)
  ∧ RecursiveTextSplitter.init chunk_size chunk_overlap separators
    = Raise (AssertionError assert_msg).
Proof.
  intros Hge.
  unfold CharacterTextSplitter.init, RecursiveTextSplitter.init.
  destruct (Z.gtb_spec chunk_size chunk_overlap); [lia | done].
Qed.

Lemma init_rejects_overlap_ge_size_witness :
  CharacterTextSplitter.init 100 100 = Raise (AssertionError assert_msg)
  ∧ RecursiveTextSplitter.init 100 100 None = Raise (AssertionError assert_msg).
Proof. apply (init_rejects_overlap_ge_size 100 100 None). lia. Defined.

(** ** [CharacterTextSplitter.split] *)

Section Windows.
Import CharacterTextSplitter.

Lemma range_len_from_0 stop step :
  0 < step → 0 <= stop →
  range_len 0 stop step = (stop + step - 1) / step.
Proof.
  intros Hstep Hstop. unfold range_len.
  destruct (Z.ltb_spec 0 step); [| lia].
  destruct (Z.ltb_spec 0 stop).
  - replace (stop + step - 1) with (stop - 0 - 1 + 1 * step) by lia.
    rewrite Z.div_add by lia. lia.
  - assert (stop = 0) as -> by lia.
    symmetry. apply Z.div_small. lia.
Qed.

Lemma range_from_0_lookup stop step idx (i : nat) x :
  0 < step → 0 <= stop →
  range 0 stop step = Ok idx → idx !! i = Some x →
  x = Z.of_nat i * step ∧ x < stop.
Proof.
  intros Hstep Hstop. unfold range.
  destruct (Z.eqb_spec step 0); [lia |].
  intros [= <-] Hi.
  apply list_lookup_fmap_Some in Hi as (k & -> & Hk).
  apply lookup_seq in Hk as [-> Hlt]. simpl in *.
  split; [lia |].
  rewrite range_len_from_0 in Hlt by done.
  assert (Z.of_nat i < (stop + step - 1) / step) as Hi by lia.
  assert (Z.of_nat i + 1 <= (stop + step - 1) / step) as Hi' by lia.
  assert (step * ((stop + step - 1) / step) <= stop + step - 1)
    by (apply Z.mul_div_le; lia).
  nia.
Qed.

Lemma slice_window (text : str) lo size :
  0 <= lo < len text → 0 < size →
  slice text lo (lo + size) = take (Z.to_nat size) (drop (Z.to_nat lo) text)
  ∧ len (slice text lo (lo + size)) = Z.min size (len text - lo).
Proof.
  intros Hlo Hsize. unfold slice, slice_bound.
  destruct (Z.ltb_spec lo 0); [lia |].
  destruct (Z.ltb_spec (lo + size) 0); [lia |].
  rewrite (Z.min_l lo) by lia.
  assert (length (drop (Z.to_nat lo) text) = Z.to_nat (len text - lo)) as Hdrop.
  { rewrite length_drop. unfold len. lia. }
  destruct (Z.le_gt_cases (lo + size) (len text)).
  - rewrite Z.min_l by lia. replace (lo + size - lo) with size by lia.
    split; [done |]. unfold len at 1. rewrite length_take, Hdrop. lia.
  - rewrite Z.min_r by lia. split.
    + rewrite !take_ge; [done | lia | lia].
    + unfold len at 1. rewrite length_take, Hdrop. lia.
Qed.
End Windows.

(** C8 (amended): for [0 <= chunk_overlap < chunk_size],
    [CharacterTextSplitter.split] returns a finite list of
    [ceil(len(text) / (chunk_size - chunk_overlap))] windows; window [i]
    starts at offset [i * (chunk_size - chunk_overlap)], which lies
    inside the text, and holds the [chunk_size] characters from there or
    as many as are left, so its length is
    [min(chunk_size, len(text) - offset)]: a window is short exactly when
    it runs into the end of the text, which with a positive overlap can
    happen to several windows at the end, not only to the last. *)
Theorem character_split_windows (chunk_size chunk_overlap : Z) (text : str) :
  0 <= chunk_overlap < chunk_size →
  ∃ self windows,
    CharacterTextSplitter.init chunk_size chunk_overlap = Ok self
    ∧ CharacterTextSplitter.split self text = Ok windows
    ∧ len windows
      = (len text + (chunk_size - chunk_overlap) - 1) / (chunk_size - chunk_overlap)
    ∧ ∀ (i : nat) w, windows !! i = Some w →
        let offset := Z.of_nat i * (chunk_size - chunk_overlap) in
        offset < len text
        ∧ w = take (Z.to_nat chunk_size) (drop (Z.to_nat offset) text)
        ∧ len w = Z.min chunk_size (len text - offset).
Proof.
  intros Hcfg. set (step := chunk_size - chunk_overlap).
  assert (0 < step) as Hstep by (unfold step; lia).
  assert (0 <= len text) as Hlen by (unfold len; lia).
  exists (CharacterTextSplitter.mk chunk_size chunk_overlap).
  destruct (range 0 (len text) step) as [idx | e] eqn:Hrange; last first.
  { unfold range in Hrange. destruct (Z.eqb_spec step 0); [lia | done]. }
  exists (map (fun i => slice text i (i + chunk_size)) idx).
  split.
  { unfold CharacterTextSplitter.init.
    destruct (Z.gtb_spec chunk_size chunk_overlap); [done | lia]. }
  split.
  { unfold CharacterTextSplitter.split. simpl. fold step. by rewrite Hrange. }
  split.
  { unfold len at 1. rewrite length_map.
    unfold range in Hrange. destruct (Z.eqb_spec step 0); [lia |].
    injection Hrange as <-. rewrite length_map, length_seq.
    rewrite range_len_from_0 by done.
    rewrite Z2Nat.id; [done |]. apply Z.div_pos; lia. }
  intros i w Hw offset.
  apply list_lookup_fmap_Some in Hw as (x & -> & Hx).
  destruct (range_from_0_lookup _ _ _ _ _ Hstep Hlen Hrange Hx) as [-> Hlt].
  fold offset in Hlt |- *. split; [done |].
  apply slice_window; [unfold offset; lia | lia].
Qed.

Lemma character_split_windows_witness :
  ∃ self windows,
    CharacterTextSplitter.init 4 1 = Ok self
    ∧ CharacterTextSplitter.split self (s "abcdefghij") = Ok windows
    ∧ len windows = (len (s "abcdefghij") + (4 - 1) - 1) / (4 - 1)
    ∧ ∀ (i : nat) w, windows !! i = Some w →
        let offset := Z.of_nat i * (4 - 1) in
        offset < len (s "abcdefghij")
        ∧ w = take (Z.to_nat 4) (drop (Z.to_nat offset) (s "abcdefghij"))
        ∧ len w = Z.min 4 (len (s "abcdefghij") - offset).
Proof. apply (character_split_windows 4 1 (s "abcdefghij")). lia. Defined.

(** With [chunk_size=3] and [chunk_overlap=2] the text abcd gives the
    windows abc, bcd, cd, d: the window cd is shorter than [chunk_size]
    and is not the last one. *)
Lemma character_split_early_short_window :
  ∃ self windows,
    CharacterTextSplitter.init 3 2 = Ok self
    ∧ CharacterTextSplitter.split self (s "abcd") = Ok windows
    ∧ windows = [s "abc"; s "bcd"; s "cd"; s "d"]
    ∧ ¬ only_final_shorter 3 windows.
Proof.
  eexists _, _. split; [reflexivity |]. split; [by vm_compute |].
  split; [done |].
  intros H. specialize (H 2%nat (s "cd") eq_refl). simpl in H.
  assert (len (s "cd") = 3) as Hbad by (apply H; lia).
  by vm_compute in Hbad.
Qed.

(** ** Joining what was split *)

Section Join.
Implicit Types (sep text cur : str) (parts : list str).

Lemma join_cons sep p parts :
  parts ≠ [] → join sep (p :: parts) = p ++ sep ++ join sep parts.
Proof. by destruct parts. Qed.

Lemma join_chars text : join [] (map (fun c => [c]) text) = text.
Proof.
  induction text as [| c text IH]; [done |].
  destruct text as [| c' text]; [done |].
  change (join [] (map _ (c :: c' :: text)))
    with ([c] ++ [] ++ join [] (map (fun c => [c]) (c' :: text))).
  by rewrite IH.
Qed.

Lemma startswith_app sep text :
  startswith sep text = true → ∃ rest, text = sep ++ rest.
Proof.
  revert text. induction sep as [| a sep IH]; intros text H.
  - by exists text.
  - destruct text as [| b text]; [done |]. simpl in H.
    destruct (Ascii.eqb_spec a b) as [-> |]; [| done].
    destruct (IH _ H) as [rest ->]. by exists rest.
Qed.

Lemma split_scan_nonempty sep skip cur text : split_scan sep skip cur text ≠ [].
Proof.
  revert skip cur. induction text as [| c text IH]; intros skip cur; [done |].
  simpl. destruct skip; [| done].
  destruct (startswith sep (c :: text)); [done | apply IH].
Qed.

Lemma split_scan_skip sep matched cur text :
  split_scan sep (length matched) cur (matched ++ text)
  = split_scan sep O cur text.
Proof.
  induction matched as [| c matched IH]; [done |].
  simpl. apply IH.
Qed.

Lemma join_split_scan sep (n : nat) : ∀ text cur,
  sep ≠ [] → (length text ≤ n)%nat →
  join sep (split_scan sep O cur text) = reverse cur ++ text.
Proof.
  induction n as [| n IH]; intros text cur Hsep Hn.
  - destruct text; [| simpl in Hn; lia]. simpl. by rewrite app_nil_r.
  - destruct text as [| c text]; [simpl; by rewrite app_nil_r |].
    simpl in Hn. simpl split_scan.
    destruct (startswith sep (c :: text)) eqn:Hstart.
    + apply startswith_app in Hstart as [rest Hrest].
      destruct sep as [| a sep]; [done |].
      injection Hrest as -> ->. simpl length.
      replace (S (length sep) - 1)%nat with (length sep) by lia.
      rewrite split_scan_skip.
      rewrite join_cons by apply split_scan_nonempty.
      rewrite IH; [by rewrite reverse_nil | done |].
      rewrite length_app in Hn. lia.
    + rewrite IH by (done || lia). rewrite reverse_cons, <- app_assoc. done.
Qed.

Lemma join_str_split text sep : sep ≠ [] → join sep (str_split text sep) = text.
Proof.
  intros Hsep. unfold str_split.
  by rewrite (join_split_scan sep (length text)).
Qed.

Lemma join_split_text_with_separator text sep :
  join sep (RecursiveTextSplitter._split_text_with_separator text sep) = text.
Proof.
  destruct sep as [| a sep]; [apply join_chars |].
  by apply join_str_split.
Qed.

Lemma without_app dropped (x y : str) :
  without dropped (x ++ y) = without dropped x ++ without dropped y.
Proof. apply filter_app. Qed.

Lemma without_dropped dropped sep :
  sep ⊆ dropped → without dropped sep = [].
Proof.
  intros Hsub. induction sep as [| c sep IH]; [done |].
  unfold without. rewrite filter_cons_False.
  - apply IH. set_solver.
  - intros Hc. apply Hc, Hsub. set_solver.
Qed.

Lemma without_join dropped sep parts :
  sep ⊆ dropped →
  without dropped (join sep parts) = without dropped (concat parts).
Proof.
  intros Hsub. induction parts as [| p parts IH]; [done |].
  destruct parts as [| q parts]; [simpl; by rewrite app_nil_r |].
  rewrite join_cons by done.
  change (concat (p :: q :: parts)) with (p ++ concat (q :: parts)).
  by rewrite !without_app, IH, (without_dropped dropped sep).
Qed.
End Join.

Section Merge.
Import RecursiveTextSplitter.
Variables (self : t) (separator : str) (dropped : list ascii).
Hypothesis separator_dropped : separator ⊆ dropped.

Lemma without_concat_snoc (parts : list str) (p : str) :
  without dropped (concat (parts ++ [p]))
  = without dropped (concat parts) ++ without dropped p.
Proof. rewrite concat_app, without_app. simpl. by rewrite app_nil_r. Qed.

(** The invariant of the loop of [_merge_splits]: the pieces consumed so
    far are all in the closed chunks followed by the chunk in progress. *)
Lemma merge_step_keeps (st : merge_state) (consumed : list str) (split : str) :
  without dropped (concat consumed)
    `sublist_of` without dropped (concat (chunks st))
                 ++ without dropped (concat (current_chunk st)) →
  without dropped (concat (consumed ++ [split]))
    `sublist_of`
      without dropped (concat (chunks (merge_step self separator st split)))
      ++ without dropped
           (concat (current_chunk (merge_step self separator st split))).
Proof.
  intros Hinv. unfold merge_step.
  match goal with
  | |- context [mk_state (chunks ?f) _ _] => set (flushed := f)
  end.
  assert (without dropped (concat consumed)
            `sublist_of` without dropped (concat (chunks flushed))
                         ++ without dropped (concat (current_chunk flushed)))
    as Hflushed.
  { subst flushed.
    destruct (_ >? _); [| done].
    destruct (current_chunk st) as [| p parts] eqn:Hcur; [by rewrite Hcur |].
    cbn [chunks current_chunk].
    rewrite without_concat_snoc, without_join by done.
    by apply sublist_inserts_r. }
  cbn [chunks current_chunk].
  rewrite !without_concat_snoc, app_assoc.
  by apply sublist_app.
Qed.

Lemma merge_loop_keeps (splits : list str) : ∀ st consumed,
  without dropped (concat consumed)
    `sublist_of` without dropped (concat (chunks st))
                 ++ without dropped (concat (current_chunk st)) →
  let st' := fold_left (merge_step self separator) splits st in
  without dropped (concat (consumed ++ splits))
    `sublist_of` without dropped (concat (chunks st'))
                 ++ without dropped (concat (current_chunk st')).
Proof.
  induction splits as [| split splits IH]; intros st consumed Hinv.
  - simpl. by rewrite app_nil_r.
  - replace (consumed ++ split :: splits) with ((consumed ++ [split]) ++ splits)
      by (by rewrite <- app_assoc).
    apply IH. by apply merge_step_keeps.
Qed.

Lemma merge_splits_keeps (splits : list str) :
  without dropped (concat splits)
    `sublist_of` without dropped (concat (_merge_splits self splits separator)).
Proof.
  pose proof (merge_loop_keeps splits (mk_state [] [] 0) []) as Hloop.
  simpl in Hloop. specialize (Hloop (sublist_nil_l _)).
  unfold _merge_splits.
  destruct (current_chunk _) as [| p parts] eqn:Hcur.
  - by rewrite app_nil_r in Hloop.
  - by rewrite without_concat_snoc, without_join.
Qed.
End Merge.

Section Recursion.
Import RecursiveTextSplitter.
Variables (chunk_size chunk_overlap : Z) (dropped : list ascii).
Hypothesis sizes_ok : chunk_overlap < chunk_size.

Lemma extend_each_keeps (f : str → result (list str)) (pieces : list str) :
  (∀ piece, ∃ sub, f piece = Ok sub ∧ covers_input_but dropped piece sub) →
  ∃ good, extend_each f pieces = Ok good
          ∧ without dropped (concat pieces)
              `sublist_of` without dropped (concat good).
Proof.
  intros Hf. induction pieces as [| piece pieces IH].
  - by exists [].
  - destruct (Hf piece) as (sub & Hsub & Hcov).
    destruct IH as (good & Hgood & Hkeep).
    exists (sub ++ good). simpl. rewrite Hsub. simpl. rewrite Hgood. simpl.
    split; [done |].
    rewrite concat_app, !without_app. by apply sublist_app.
Qed.

Lemma split_with_keeps (seps : list str) : ∀ text,
  concat seps ⊆ dropped →
  ∃ chunks, split_with chunk_size chunk_overlap seps text = Ok chunks
            ∧ covers_input_but dropped text chunks.
Proof.
  induction seps as [| separator rest IH]; intros text Hdropped.
  - exists [text]. split; [done |].
    unfold covers_input_but. simpl. by rewrite app_nil_r.
  - assert (separator ⊆ dropped) as Hsep.
    { intros c Hc. apply Hdropped. simpl. apply elem_of_app. by left. }
    assert (concat rest ⊆ dropped) as Hrest.
    { intros c Hc. apply Hdropped. simpl. apply elem_of_app. by right. }
    assert (without dropped text
            = without dropped
                (concat (_split_text_with_separator text separator))) as Htext.
    { by rewrite <- (without_join dropped separator),
        join_split_text_with_separator. }
    cbn [split_with].
    destruct (_ <=? _).
    { eexists. split; [done |]. unfold covers_input_but. rewrite Htext.
      by apply merge_splits_keeps. }
    destruct rest as [| separator' rest'].
    { eexists. split; [done |]. unfold covers_input_but. rewrite Htext.
      by apply merge_splits_keeps. }
    edestruct (extend_each_keeps) as (good & -> & Hgood); last first.
    { eexists. split; [done |]. unfold covers_input_but. rewrite Htext.
      etrans; [apply Hgood |]. by apply merge_splits_keeps. }
    intros piece. cbn beta.
    destruct (_ <=? _).
    { exists [piece]. split; [done |].
      unfold covers_input_but. simpl. by rewrite app_nil_r. }
    destruct (Z.gtb_spec chunk_size chunk_overlap); [| lia].
    by apply IH.
Qed.
End Recursion.

(** ** The recursive splitter on concrete texts *)

(** C5: with [chunk_size=6], [chunk_overlap=0] and the default
    separators, the text AAAA, blank line, BBBB, blank line, CCCC is cut
    into exactly the chunks AAAA, BBBB and CCCC, and this result is the
    merge of the pieces obtained from the paragraph separator, the first
    of the list: no later separator is tried. *)
Theorem split_paragraphs_example :
  ∃ self,
    RecursiveTextSplitter.init 6 0 None = Ok self
    ∧ RecursiveTextSplitter.split self paragraphs_text
      = Ok [s "AAAA"; s "BBBB"; s "CCCC"]
    ∧ RecursiveTextSplitter._split_text_with_separator paragraphs_text (s (nl ++ nl))
      = [s "AAAA"; s "BBBB"; s "CCCC"]
    ∧ max_len_or_0 [s "AAAA"; s "BBBB"; s "CCCC"] <= 6
    ∧ RecursiveTextSplitter._merge_splits self [s "AAAA"; s "BBBB"; s "CCCC"] (s (nl ++ nl))
      = [s "AAAA"; s "BBBB"; s "CCCC"].
Proof.
  eexists. split; [reflexivity |].
  repeat split; by vm_compute.
Qed.

(** C1, on the text aaaa, blank line, bbbbbbbbb with [chunk_size=10] and
    [chunk_overlap=6]: the two paragraphs are the pieces and both fit.
    [_merge_splits] closes the chunk aaaa, seeds the next chunk with aaaa
    as overlap and then appends bbbbbbbbb to it without another size
    check, so the second chunk returned by [split] is the whole text, 15
    characters long, above [chunk_size]. *)
Theorem split_chunk_exceeds_chunk_size :
  ∃ self,
    RecursiveTextSplitter.init 10 6 None = Ok self
    ∧ RecursiveTextSplitter._split_text_with_separator two_paragraphs_text
        (s (nl ++ nl))
      = [s "aaaa"; s "bbbbbbbbb"]
    ∧ max_len_or_0 [s "aaaa"; s "bbbbbbbbb"] = 9
    ∧ RecursiveTextSplitter._merge_splits self [s "aaaa"; s "bbbbbbbbb"]
        (s (nl ++ nl))
      = [s "aaaa"; two_paragraphs_text]
    ∧ RecursiveTextSplitter.split self two_paragraphs_text
      = Ok [s "aaaa"; two_paragraphs_text]
    ∧ len two_paragraphs_text = 15
    ∧ ¬ Forall (fun chunk => len chunk <= 10) [s "aaaa"; two_paragraphs_text].
Proof.
  eexists. split; [reflexivity |].
  do 5 (split; [by vm_compute |]).
  intros H. apply Forall_cons_1 in H as [_ H].
  apply Forall_cons_1 in H as [H _]. vm_compute in H. by apply H.
Qed.

(** C10: with the default separators and [0 <= chunk_overlap <
    chunk_size], splitting the empty text returns the list holding the
    empty string alone, and it does so on the path of the first
    separator.  The separator list of the splitter is not empty, so the
    [return [text]] after the loop is not what [split] comes to; for
    every text none of whose pieces on the first separator is above
    [chunk_size], [split] returns the merge of those pieces on that
    separator; the empty text is such a text, its only piece being the
    empty string, and the merge of that piece is the result. *)
Theorem split_empty_text (chunk_size chunk_overlap : Z) :
  0 <= chunk_overlap < chunk_size →
  ∃ self first rest,
    RecursiveTextSplitter.init chunk_size chunk_overlap None = Ok self
    ∧ RecursiveTextSplitter.separators self = first :: rest
    ∧ (∀ text,
         max_len_or_0 (RecursiveTextSplitter._split_text_with_separator text first)
         <= chunk_size →
         RecursiveTextSplitter.split self text
         = Ok (RecursiveTextSplitter._merge_splits self
                 (RecursiveTextSplitter._split_text_with_separator text first)
                 first))
    ∧ RecursiveTextSplitter._split_text_with_separator [] first = [[]]
    ∧ max_len_or_0 (RecursiveTextSplitter._split_text_with_separator [] first)
      <= chunk_size
    ∧ RecursiveTextSplitter.split self []
      = Ok (RecursiveTextSplitter._merge_splits self
              (RecursiveTextSplitter._split_text_with_separator [] first) first)
    ∧ RecursiveTextSplitter._merge_splits self
        (RecursiveTextSplitter._split_text_with_separator [] first) first
      = [[]]
    ∧ RecursiveTextSplitter.split self [] = Ok [[]].
Proof.
  intros Hsizes.
  assert (∀ self sep,
            RecursiveTextSplitter._merge_splits self [[]] sep = [[]])
    as Hmerge.
  { intros self sep.
    unfold RecursiveTextSplitter._merge_splits,
      RecursiveTextSplitter.merge_step. simpl.
    by destruct (_ >? _). }
  assert (max_len_or_0 ([[]] : list str) <= chunk_size) as Hfits
    by (unfold max_len_or_0, len; simpl; lia).
  eexists _, _, _. split; [apply init_ok; lia |].
  assert (∀ text,
            max_len_or_0
              (RecursiveTextSplitter._split_text_with_separator text
                 (s (String "010" (String "010" EmptyString))))
            <= chunk_size →
            RecursiveTextSplitter.split
              (RecursiveTextSplitter.mk chunk_size chunk_overlap
                 (RecursiveTextSplitter.separators_or_default None)) text
            = Ok (RecursiveTextSplitter._merge_splits
                    (RecursiveTextSplitter.mk chunk_size chunk_overlap
                       (RecursiveTextSplitter.separators_or_default None))
                    (RecursiveTextSplitter._split_text_with_separator text
                       (s (String "010" (String "010" EmptyString))))
                    (s (String "010" (String "010" EmptyString))))) as Hpath.
  { intros text Htext. unfold RecursiveTextSplitter.split.
    cbn [RecursiveTextSplitter.chunk_size RecursiveTextSplitter.chunk_overlap
         RecursiveTextSplitter.separators
         RecursiveTextSplitter.separators_or_default].
    unfold RecursiveTextSplitter.default_separators.
    by rewrite split_with_first_fits. }
  split_and!.
  - reflexivity.
  - exact Hpath.
  - reflexivity.
  - exact Hfits.
  - by apply Hpath.
  - apply Hmerge.
  - rewrite Hpath by exact Hfits. f_equal. apply Hmerge.
Qed.

Lemma split_empty_text_witness :
  ∃ self first rest,
    RecursiveTextSplitter.init 1000 200 None = Ok self
    ∧ RecursiveTextSplitter.separators self = first :: rest
    ∧ (∀ text,
         max_len_or_0 (RecursiveTextSplitter._split_text_with_separator text first)
         <= 1000 →
         RecursiveTextSplitter.split self text
         = Ok (RecursiveTextSplitter._merge_splits self
                 (RecursiveTextSplitter._split_text_with_separator text first)
                 first))
    ∧ RecursiveTextSplitter._split_text_with_separator [] first = [[]]
    ∧ max_len_or_0 (RecursiveTextSplitter._split_text_with_separator [] first)
      <= 1000
    ∧ RecursiveTextSplitter.split self []
      = Ok (RecursiveTextSplitter._merge_splits self
              (RecursiveTextSplitter._split_text_with_separator [] first) first)
    ∧ RecursiveTextSplitter._merge_splits self
        (RecursiveTextSplitter._split_text_with_separator [] first) first
      = [[]]
    ∧ RecursiveTextSplitter.split self [] = Ok [[]].
Proof. apply (split_empty_text 1000 200). lia. Defined.

(** * Properties of the vector store *)

(** ** Dictionaries *)

Section DictFacts.
Import PyDict.
Context {K V : Type} `{EqDecision K}.
Implicit Types (d : dict K V) (k : K) (v : V).

Lemma get_setitem_eq d k v : get (setitem d k v) k = Some v.
Proof.
  induction d as [| [k' v'] d IH]; simpl.
  - by rewrite decide_True.
  - destruct (decide (k = k')) as [-> | Hne]; simpl.
    + by rewrite decide_True.
    + by rewrite decide_False.
Qed.

Lemma get_setitem_ne d k k' v : k ≠ k' → get (setitem d k v) k' = get d k'.
Proof.
  intros Hne. induction d as [| [k0 v0] d IH]; simpl.
  - by rewrite decide_False.
  - destruct (decide (k = k0)) as [-> | Hk]; simpl.
    + by rewrite !decide_False.
    + by rewrite IH.
Qed.

Lemma get_None d k : k ∉ keys d → get d k = None.
Proof.
  induction d as [| [k' v'] d IH]; [done |]. simpl.
  intros [Hne Hnot]%not_elem_of_cons.
  rewrite decide_False by done. by apply IH.
Qed.

(** A key that is assigned keeps its place if it is there already and
    goes to the end otherwise: [keys] lists the keys by first insertion. *)
Lemma keys_setitem d k v :
  keys (setitem d k v) = if decide (k ∈ keys d) then keys d else keys d ++ [k].
Proof.
  induction d as [| [k' v'] d IH]; [done |]. simpl.
  destruct (decide (k = k')) as [-> | Hne]; simpl.
  - rewrite decide_True; [done | apply elem_of_cons; by left].
  - rewrite IH.
    destruct (decide (k ∈ keys d)) as [Hin | Hnot].
    + rewrite decide_True; [done | apply elem_of_cons; by right].
    + rewrite decide_False; [done |].
      intros [? | ?]%elem_of_cons; done.
Qed.
End DictFacts.

(** ** Stable sorting *)

Section SortedFacts.
Import PySorted.
Context {A S : Type} (key : A → S) (lt : S → S → bool).
Hypothesis lt_asym : ∀ a b, lt a b = true → lt b a = false.
Hypothesis lt_cotrans : ∀ a b c, lt a b = true → lt a c = true ∨ lt c b = true.


Lemma insert_stable_perm x l : insert_stable key lt x l ≡ₚ x :: l.
Proof.
  induction l as [| y l IH]; [done |]. simpl.
  destruct (lt (key y) (key x)); [| done].
  rewrite IH. apply Permutation_swap.
Qed.

Lemma sort_stable_perm l : sort_stable key lt l ≡ₚ l.
Proof.
  induction l as [| x l IH]; [done |]. simpl.
  by rewrite insert_stable_perm, IH.
Qed.

Lemma insert_stable_sorted x l :
  StronglySorted (flip (not_below key lt)) l →
  StronglySorted (flip (not_below key lt)) (insert_stable key lt x l).
Proof.
  induction l as [| y l IH]; intros Hl; simpl.
  - repeat constructor.
  - apply StronglySorted_cons in Hl as [Hy Hl].
    destruct (lt (key y) (key x)) eqn:Hyx.
    + apply StronglySorted_cons. split; [| by apply IH].
      rewrite insert_stable_perm. constructor; [| done].
      unfold flip, not_below. by apply lt_asym.
    + apply StronglySorted_cons. split; [| by apply StronglySorted_cons].
      constructor; [done |].
      eapply Forall_impl; [apply Hy |]. intros z Hz. unfold flip, not_below in *.
      destruct (lt (key z) (key x)) eqn:Hzx; [| done].
      destruct (lt_cotrans _ _ (key y) Hzx); congruence.
Qed.

Lemma sort_stable_sorted l :
  StronglySorted (flip (not_below key lt)) (sort_stable key lt l).
Proof.
  induction l as [| x l IH]; simpl; [constructor |].
  by apply insert_stable_sorted.
Qed.

Lemma StronglySorted_reverse (R : relation A) l :
  StronglySorted R l → StronglySorted (flip R) (reverse l).
Proof.
  induction 1 as [| x l Hl IH Hx]; [constructor |].
  rewrite reverse_cons. apply StronglySorted_app. split_and!.
  - intros y z Hy Hz. apply list_elem_of_singleton in Hz as ->.
    rewrite elem_of_reverse in Hy. rewrite Forall_forall in Hx.
    unfold flip. by apply Hx.
  - done.
  - repeat constructor.
Qed.

Lemma sorted_reverse_descending l :
  StronglySorted (not_below key lt) (sorted key lt true l).
Proof.
  unfold sorted.
  apply (StronglySorted_reverse (flip (not_below key lt))), sort_stable_sorted.
Qed.

Lemma sorted_perm flag l : sorted key lt flag l ≡ₚ l.
Proof.
  unfold sorted. destruct flag; [| apply sort_stable_perm].
  by rewrite reverse_Permutation, sort_stable_perm, reverse_Permutation.
Qed.

(** Stability: a class of elements that the order does not tell apart
    keeps its original order. *)
Section Stable.
Context (P : A → Prop) `{∀ x, Decision (P x)}.
Hypothesis P_tied : ∀ x y, P x → P y → lt (key y) (key x) = false.

Lemma insert_stable_filter x l :
  filter P (insert_stable key lt x l) = filter P (x :: l).
Proof.
  induction l as [| y l IH]; [done |]. simpl.
  destruct (lt (key y) (key x)) eqn:Hyx; [| done].
  rewrite filter_cons, IH, !filter_cons.
  destruct (decide (P y)), (decide (P x)); try done.
  rewrite P_tied in Hyx; done.
Qed.

Lemma sort_stable_filter l : filter P (sort_stable key lt l) = filter P l.
Proof.
  induction l as [| x l IH]; [done |]. simpl.
  by rewrite insert_stable_filter, !filter_cons, IH.
Qed.

Lemma sorted_filter flag l : filter P (sorted key lt flag l) = filter P l.
Proof.
  unfold sorted. destruct flag; [| apply sort_stable_filter].
  by rewrite filter_reverse, sort_stable_filter, filter_reverse,
    reverse_involutive.
Qed.
End Stable.

Lemma tied_class_unordered (sc : S) (x y : A) :
  tied lt sc (key x) = true → tied lt sc (key y) = true →
  lt (key y) (key x) = false.
Proof.
  unfold tied. intros Hx%andb_prop Hy%andb_prop.
  destruct Hx as [Hx1%negb_true_iff Hx2%negb_true_iff].
  destruct Hy as [Hy1%negb_true_iff Hy2%negb_true_iff].
  destruct (lt (key y) (key x)) eqn:Hyx; [| done].
  destruct (lt_cotrans _ _ sc Hyx); congruence.
Qed.
End SortedFacts.

Lemma slice_to_take {A} (x : list A) (k : Z) :
  0 <= k → slice_to x k = take (Z.to_nat k) x.
Proof.
  intros Hk. unfold slice_to, slice, slice_bound.
  assert (0 <= len x) by (unfold len; lia).
  change (0 <? 0) with false. cbn match.
  destruct (Z.ltb_spec k 0); [lia |].
  rewrite (Z.min_l 0) by lia. rewrite Z.sub_0_r. simpl drop.
  destruct (Z.le_gt_cases k (len x)).
  - by rewrite Z.min_l.
  - rewrite Z.min_r by lia. unfold len in *.
    rewrite (take_ge x (Z.to_nat k)) by lia. apply take_ge. lia.
Qed.

Lemma filter_take_prefix {A} (P : A → Prop) `{∀ x, Decision (P x)} n (l : list A) :
  filter P (take n l) `prefix_of` filter P l.
Proof.
  exists (filter P (drop n l)). by rewrite <- filter_app, take_drop.
Qed.

Section SearchFacts.
Import VectorDatabase.
Context {Vector Value Score : Type} (lt : Score → Score → bool).
Hypothesis lt_asym : ∀ a b, lt a b = true → lt b a = false.
Hypothesis lt_cotrans : ∀ a b c, lt a b = true → lt a c = true ∨ lt c b = true.
Implicit Types (self : t Vector Value) (query_vector : Vector)
  (distance_measure : Vector → Vector → Score).

Lemma search_entries self query_vector k distance_measure return_metadata :
  map hit_entry (search lt self query_vector k distance_measure return_metadata)
  = slice_to
      (PySorted.sorted snd lt true (scores_of self query_vector distance_measure))
      k.
Proof.
  unfold search. destruct return_metadata; rewrite map_map; simpl.
  - rewrite <- (map_id (slice_to _ _)) at 2. apply map_ext. by intros [].
  - rewrite <- (map_id (slice_to _ _)) at 2. apply map_ext. by intros [].
Qed.

Lemma StronglySorted_take {A} (R : relation A) n (l : list A) :
  StronglySorted R l → StronglySorted R (take n l).
Proof.
  intros Hl. rewrite <- (take_drop n l) in Hl.
  by apply StronglySorted_app_1_l in Hl.
Qed.
End SearchFacts.

(** C3 (amended): let [<] order the scores as it orders numbers ([lt]
    is asymmetric, and when [a < b] every score is above [a] or below
    [b]; a score like NaN, which is below nothing and above nothing
    while other scores differ, is excluded), and let [0 <= k].  Write
    [stored] for the keys of the store with their scores, in insertion
    order.  Then [search] returns [min(k, n)] results for a store of [n]
    records, so at most [k]; no result has a score below the score of a
    later result; for every score, the results tied with it are, in the
    same order, the first records tied with it in [stored]; the results
    are the best: together with the records left out they are all of
    [stored], and no result scores below a record left out; and when
    [k] is at least [n] the results are all the records.  [search] is a
    function that returns a list in every case. *)
Theorem search_top_k_descending_stable {Vector Value Score : Type}
    (lt : Score → Score → bool)
    (self : VectorDatabase.t Vector Value) (query_vector : Vector) (k : Z)
    (distance_measure : Vector → Vector → Score) (return_metadata : bool) :
  (∀ a b, lt a b = true → lt b a = false) →
  (∀ a b c, lt a b = true → lt a c = true ∨ lt c b = true) →
  0 <= k →
  let stored :=
    map (fun key_vector =>
           (fst key_vector, distance_measure query_vector (snd key_vector)))
        (VectorDatabase.vectors self) in
  let results :=
    VectorDatabase.search lt self query_vector k distance_measure
      return_metadata in
  let entries := map VectorDatabase.hit_entry results in
  len results <= k
  ∧ len results = Z.min k (len (VectorDatabase.vectors self))
  ∧ StronglySorted (not_below snd lt) entries
  ∧ (∀ sc, filter (λ e, tied lt sc (snd e) = true) entries
            `prefix_of` filter (λ e, tied lt sc (snd e) = true) stored)
  ∧ (∃ left_out,
       entries ++ left_out ≡ₚ stored
       ∧ Forall (λ e, Forall (λ r, lt (snd e) (snd r) = false) left_out)
           entries)
  ∧ (len (VectorDatabase.vectors self) <= k → entries ≡ₚ stored).
Proof.
  intros lt_asym lt_cotrans Hk stored results entries.
  set (ranking := PySorted.sorted snd lt true stored).
  assert (entries = take (Z.to_nat k) ranking) as Hentries.
  { unfold entries, results. by rewrite search_entries, slice_to_take. }
  assert (length ranking = length (VectorDatabase.vectors self)) as Hlength.
  { unfold ranking. rewrite (sorted_perm snd lt true stored).
    unfold stored. by rewrite length_map. }
  assert (StronglySorted (not_below snd lt) ranking) as Hsorted
    by (by apply sorted_reverse_descending).
  assert (len results = Z.min k (len (VectorDatabase.vectors self))) as Hlen.
  { replace (len results) with (len entries)
      by (unfold len, entries; by rewrite length_map).
    rewrite Hentries. unfold len. rewrite length_take, Hlength. lia. }
  split_and!.
  - lia.
  - exact Hlen.
  - rewrite Hentries. by apply StronglySorted_take.
  - intros sc. rewrite Hentries.
    rewrite <- (sorted_filter snd lt (λ e, tied lt sc (snd e) = true)
                  (tied_class_unordered snd lt lt_cotrans sc) true stored).
    apply filter_take_prefix.
  - exists (drop (Z.to_nat k) ranking). rewrite Hentries, take_drop.
    split; [apply sorted_perm |].
    rewrite <- (take_drop (Z.to_nat k) ranking) in Hsorted.
    apply StronglySorted_app in Hsorted as (Hcross & _ & _).
    apply Forall_forall. intros e He. apply Forall_forall. intros r Hr.
    by apply Hcross.
  - intros Hall. rewrite Hentries, take_ge.
    + apply sorted_perm.
    + rewrite Hlength. unfold len in Hall. lia.
Qed.

Lemma search_top_k_descending_stable_witness :
  let stored :=
    map (fun key_vector => (fst key_vector, Z.mul 2 (snd key_vector)))
        (VectorDatabase.vectors sample_store) in
  let results := VectorDatabase.search Z.ltb sample_store 2 5 Z.mul true in
  let entries := map VectorDatabase.hit_entry results in
  len results <= 5
  ∧ len results = Z.min 5 (len (VectorDatabase.vectors sample_store))
  ∧ StronglySorted (not_below snd Z.ltb) entries
  ∧ (∀ sc, filter (λ e, tied Z.ltb sc (snd e) = true) entries
            `prefix_of` filter (λ e, tied Z.ltb sc (snd e) = true) stored)
  ∧ (∃ left_out,
       entries ++ left_out ≡ₚ stored
       ∧ Forall (λ e, Forall (λ r, Z.ltb (snd e) (snd r) = false) left_out)
           entries)
  ∧ (len (VectorDatabase.vectors sample_store) <= 5 → entries ≡ₚ stored).
Proof.
  apply (search_top_k_descending_stable Z.ltb sample_store 2 5 Z.mul true).
  - intros a b. lia.
  - intros a b c. lia.
  - lia.
Defined.

(** Two inputs on which [search] does not do what holds under the
    conditions above.  With [k = -1] the slice [[:k]] drops the last
    result of three and [search] returns two results, which is more than
    [k].  With a measure that gives NaN for the zero vector, the scores
    1, NaN, 2 of a, b, c come back in this order for [k = 3]: reversed
    they are 2, NaN, 1, in which [<] is false between neighbours, so the
    sort leaves them as they are, and the result has the score 1 before
    the score 2. *)
Lemma search_negative_k_and_nan :
  (let results := VectorDatabase.search Z.ltb sample_store 2 (-1) Z.mul false in
   map VectorDatabase.hit_entry results = [("b", 6); ("a", 2)]
   ∧ ¬ len results <= -1)
  ∧ (let entries :=
       map VectorDatabase.hit_entry
         (VectorDatabase.search nan_lt nan_store 1 3 nan_measure false) in
     entries = [("a", Some 1); ("b", None); ("c", Some 2)]
     ∧ ¬ StronglySorted (not_below snd nan_lt) entries).
Proof.
  split.
  - split; [by vm_compute |]. vm_compute. intros H. by apply H.
  - split; [by vm_compute |].
    intros Hsorted. apply StronglySorted_cons in Hsorted as [Ha _].
    apply Forall_cons_1 in Ha as [_ Ha]. apply Forall_cons_1 in Ha as [Ha _].
    by vm_compute in Ha.
Qed.

(** On the sample store with the query 2 and the product as measure, b
    scores 6 and a and c both score 2: b comes first, then a before c as
    inserted; inserting a again leaves it before c. *)
Example search_sample_store :
  map VectorDatabase.hit_entry
    (VectorDatabase.search Z.ltb sample_store 2 3 Z.mul false)
  = [("b", 6); ("a", 2); ("c", 2)]
  ∧ map VectorDatabase.hit_entry
      (VectorDatabase.search Z.ltb
         (VectorDatabase.insert sample_store "a" 1 None) 2 2 Z.mul false)
    = [("b", 6); ("a", 2)].
Proof. by vm_compute. Qed.

(** ** Insertion and retrieval *)

(** X17: the keys of the store after [insert]: a key already there
    keeps its place, a new key is put last. *)
Lemma insert_keys {Vector Value : Type}
    (self : VectorDatabase.t Vector Value) (key : string)
    (vector : Vector) (meta : option (gmap string Value)) :
  PyDict.keys (VectorDatabase.vectors (VectorDatabase.insert self key vector meta))
  = if decide (key ∈ PyDict.keys (VectorDatabase.vectors self))
    then PyDict.keys (VectorDatabase.vectors self)
    else PyDict.keys (VectorDatabase.vectors self) ++ [key].
Proof. destruct meta; apply keys_setitem. Qed.

(** C4 (amended): [insert] under a key replaces the vector held for
    that key, so that [retrieve_from_key] returns the vector of the last
    [insert], after one insertion and after a second one under the same
    key.  The metadata held for the key is replaced when [insert]
    receives metadata, and stays as it was when [insert] receives
    none. *)
Theorem insert_overwrites {Vector Value : Type}
    (self : VectorDatabase.t Vector Value) (key : string)
    (v v2 : Vector) (m m2 : option (gmap string Value)) :
  let db1 := VectorDatabase.insert self key v m in
  let db2 := VectorDatabase.insert db1 key v2 m2 in
  VectorDatabase.retrieve_from_key db1 key = (Some v, db1)
  ∧ VectorDatabase.retrieve_from_key db2 key = (Some v2, db2)
  ∧ record db1 key
    = Some (v, match m with
               | Some _ => m
               | None => VectorDatabase.metadata self !! key
               end)
  ∧ record db2 key
    = Some (v2, match m2 with
                | Some _ => m2
                | None => VectorDatabase.metadata db1 !! key
                end).
Proof.
  intros db1 db2.
  assert (∀ (db : VectorDatabase.t Vector Value) x mx,
    PyDict.get (VectorDatabase.vectors (VectorDatabase.insert db key x mx)) key
      = Some x
    ∧ VectorDatabase.metadata (VectorDatabase.insert db key x mx) !! key
      = match mx with
        | Some _ => mx
        | None => VectorDatabase.metadata db !! key
        end) as Hinsert.
  { intros db x [mx |]; simpl; split;
      [apply get_setitem_eq | apply lookup_insert_eq
      | apply get_setitem_eq | done]. }
  unfold VectorDatabase.retrieve_from_key, record.
  destruct (Hinsert self v m) as [Hv1 Hm1].
  destruct (Hinsert db1 v2 m2) as [Hv2 Hm2].
  fold db1 in Hv1, Hm1. fold db2 in Hv2, Hm2.
  split_and!;
    [by rewrite Hv1 | by rewrite Hv2 | by rewrite Hv1, Hm1 | by rewrite Hv2, Hm2].
Qed.

(** A record inserted with metadata and inserted again without: the
    vector is the new one, the metadata is still the one of the first
    insertion. *)
Lemma insert_without_metadata_keeps_prior_metadata :
  let db0 := VectorDatabase.insert (VectorDatabase.init (Vector := Z))
               "a" 1 (Some ({[ "source" := "doc_a" ]} : gmap string string)) in
  record db0 "a" = Some (1, Some {[ "source" := "doc_a" ]})
  ∧ record (VectorDatabase.insert db0 "a" 2 None) "a"
    = Some (2, Some {[ "source" := "doc_a" ]})
  ∧ record (VectorDatabase.insert db0 "a" 2 None) "a" ≠ Some (2, None).
Proof. by vm_compute. Qed.

(** C9: [insert] under [k1] leaves the vector, the metadata and so the
    whole record of every other key [k2] as they were. *)
Theorem insert_frame {Vector Value : Type}
    (self : VectorDatabase.t Vector Value) (k1 k2 : string)
    (v : Vector) (m : option (gmap string Value)) :
  k1 ≠ k2 →
  let db := VectorDatabase.insert self k1 v m in
  PyDict.get (VectorDatabase.vectors db) k2
    = PyDict.get (VectorDatabase.vectors self) k2
  ∧ VectorDatabase.metadata db !! k2 = VectorDatabase.metadata self !! k2
  ∧ record db k2 = record self k2.
Proof.
  intros Hne db.
  assert (PyDict.get (VectorDatabase.vectors db) k2
          = PyDict.get (VectorDatabase.vectors self) k2) as Hv.
  { unfold db. destruct m; simpl; by apply get_setitem_ne. }
  assert (VectorDatabase.metadata db !! k2 = VectorDatabase.metadata self !! k2)
    as Hm.
  { unfold db. destruct m; simpl; [by apply lookup_insert_ne | done]. }
  unfold record. by rewrite Hv, Hm.
Qed.

Lemma insert_frame_witness :
  let db := VectorDatabase.insert sample_store "a" 7 (Some ∅) in
  PyDict.get (VectorDatabase.vectors db) "b"
    = PyDict.get (VectorDatabase.vectors sample_store) "b"
  ∧ VectorDatabase.metadata db !! "b" = VectorDatabase.metadata sample_store !! "b"
  ∧ record db "b" = record sample_store "b".
Proof. apply (insert_frame sample_store "a" "b" 7 (Some ∅)). done. Defined.

(** C7: for a key that is not among the keys of the store,
    [retrieve_from_key] returns [None], being a function that returns in
    every case, and leaves the store as it was: no entry is made for the
    key. *)
Theorem retrieve_missing_key {Vector Value : Type}
    (self : VectorDatabase.t Vector Value) (key : string) :
  key ∉ PyDict.keys (VectorDatabase.vectors self) →
  VectorDatabase.retrieve_from_key self key = (None, self).
Proof.
  intros Hmissing. unfold VectorDatabase.retrieve_from_key.
  by rewrite get_None.
Qed.

Lemma retrieve_missing_key_witness :
  VectorDatabase.retrieve_from_key sample_store "d" = (None, sample_store).
Proof.
  apply (retrieve_missing_key sample_store "d").
  vm_compute. intros Hin. repeat (apply elem_of_cons in Hin as [Heq | Hin]; [done |]).
  by apply elem_of_nil in Hin.
Defined.

(** * Further properties of the splitters *)

(** ** Windows of [CharacterTextSplitter] *)

Section WindowsAsTakes.
Import CharacterTextSplitter.

(** The windows written with [take] and [drop] on natural numbers. *)
Lemma character_split_takes chunk_size chunk_overlap (text : str) :
  0 <= chunk_overlap < chunk_size →
  split (mk chunk_size chunk_overlap) text
  = Ok (map (fun k => take (Z.to_nat chunk_size)
                        (drop (k * Z.to_nat (chunk_size - chunk_overlap)) text))
          (seq 0 (Z.to_nat ((len text + (chunk_size - chunk_overlap) - 1)
                            / (chunk_size - chunk_overlap))))).
Proof.
  intros Hsizes. set (step := chunk_size - chunk_overlap).
  assert (0 < step) as Hstep by (unfold step; lia).
  assert (0 <= len text) as Hlen by (unfold len; lia).
  unfold split, range. cbn [CharacterTextSplitter.chunk_size
    CharacterTextSplitter.chunk_overlap]. fold step.
  destruct (Z.eqb_spec step 0); [lia |]. simpl.
  rewrite range_len_from_0 by done. rewrite map_map. f_equal.
  apply map_ext_in. intros k Hk%in_seq.
  assert (Z.of_nat k < (len text + step - 1) / step) as Hk'.
  { apply Z2Nat.inj_lt; [lia | apply Z.div_pos; lia | lia]. }
  assert (step * ((len text + step - 1) / step) <= len text + step - 1)
    by (apply Z.mul_div_le; lia).
  assert (0 <= Z.of_nat k * step < len text) as Hoff by nia.
  rewrite Z.add_0_l.
  rewrite (proj1 (slice_window text (Z.of_nat k * step) chunk_size Hoff
                    ltac:(lia))).
  do 2 f_equal. rewrite Z2Nat.inj_mul, Nat2Z.id by lia. done.
Qed.

Lemma without_overlaps_snoc overlap (windows : list str) (w : str) :
  windows ≠ [] →
  without_overlaps overlap (windows ++ [w])
  = without_overlaps overlap windows ++ drop overlap w.
Proof.
  destruct windows as [| w0 rest]; [done |]. intros _. simpl.
  rewrite map_app, concat_app. simpl. by rewrite app_nil_r, app_assoc.
Qed.

Lemma windows_cover (text : str) (size step : nat) :
  (0 < step ≤ size)%nat → ∀ m : nat,
  without_overlaps (size - step)
    (map (fun k => take size (drop (k * step) text)) (seq 0 (S m)))
  = take (m * step + size) text.
Proof.
  intros Hstep. induction m as [| m IH].
  - simpl. by rewrite app_nil_r.
  - rewrite seq_S, map_app. cbn [map Nat.add].
    rewrite without_overlaps_snoc by done. rewrite IH.
    rewrite skipn_firstn_comm, drop_drop.
    replace (size - (size - step))%nat with step by lia.
    replace (S m * step + (size - step))%nat with (m * step + size)%nat by lia.
    rewrite take_take_drop. f_equal. lia.
Qed.
End WindowsAsTakes.


(** ** Sizes of the chunks of [RecursiveTextSplitter] *)

Section Lengths.
Implicit Types (sep : str) (parts : list str).

Lemma len_app {A} (x y : list A) : len (x ++ y) = len x + len y.
Proof. unfold len. rewrite length_app. lia. Qed.

Lemma len_nonneg {A} (x : list A) : 0 <= len x.
Proof. unfold len. lia. Qed.

Lemma sum_len_app parts1 parts2 :
  sum_len (parts1 ++ parts2) = sum_len parts1 + sum_len parts2.
Proof.
  induction parts1 as [| p parts1 IH]; simpl; [done |]. rewrite IH. lia.
Qed.

Lemma sum_len_nonneg parts : 0 <= sum_len parts.
Proof.
  induction parts as [| p parts IH]; simpl; [done |].
  pose proof (len_nonneg p). lia.
Qed.

(** The length of a joined string: the parts and one separator between
    neighbours. *)
Lemma len_join sep parts :
  len (join sep parts) = sum_len parts + len sep * Z.max 0 (len parts - 1).
Proof.
  induction parts as [| p parts IH]; [unfold len; simpl; lia |].
  destruct parts as [| q parts].
  - unfold sum_len, len. simpl. change (Z.of_nat 1 - 1) with 0.
    rewrite Z.max_id. lia.
  - rewrite join_cons by done. rewrite !len_app, IH.
    unfold sum_len, len. simpl length. cbn [fold_right]. lia.
Qed.

Lemma len_join_snoc sep parts p :
  len (join sep (parts ++ [p]))
  = match parts with
    | [] => len p
    | _ :: _ => len (join sep parts) + len sep + len p
    end.
Proof.
  rewrite !len_join, sum_len_app, len_app.
  change (sum_len [p]) with (len p + 0). change (len [p]) with 1.
  destruct parts as [| q parts].
  - change (len []) with 0. change (sum_len []) with 0. simpl. lia.
  - assert (1 <= len (q :: parts)) by (unfold len; simpl length; lia).
    rewrite !Z.max_r by lia. lia.
Qed.

Lemma max_len_or_0_bound {A} (l : list (list A)) (bound : Z) :
  0 <= bound → (max_len_or_0 l <= bound ↔ Forall (fun x => len x <= bound) l).
Proof.
  intros Hbound.
  assert (∀ (l : list (list A)) acc,
            fold_left (fun m y => Z.max m (len y)) l acc <= bound
            ↔ acc <= bound ∧ Forall (fun x => len x <= bound) l) as Hfold.
  { clear l. induction l as [| y l IH]; intros acc; simpl.
    - split; [by split; [| constructor] | by intros [? _]].
    - rewrite IH, Forall_cons. split; [intros [? ?] | intros [? [? ?]]];
        split_and!; (done || lia). }
  destruct l as [| x l]; simpl.
  - split; [constructor | done].
  - by rewrite Hfold, Forall_cons.
Qed.
End Lengths.

Section MergeBound.
Import RecursiveTextSplitter.
Variables (self : t) (separator : str) (limit : Z).
Hypothesis overlap_nonneg : 0 <= chunk_overlap self.
Hypothesis size_le_limit : chunk_size self <= limit.

(** What the seeding loop keeps weighs at most [chunk_overlap], each
    kept piece counted with one separator. *)
Lemma take_overlap_weight (reversed_chunk : list str) : ∀ overlap_length kept,
  overlap_length = sum_len kept + len separator * len kept →
  overlap_length <= chunk_overlap self →
  let overlap :=
    take_overlap (chunk_overlap self) (len separator) reversed_chunk
      overlap_length kept in
  sum_len overlap + len separator * len overlap <= chunk_overlap self.
Proof.
  induction reversed_chunk as [| item rest IH]; intros ol kept Hol Hle; simpl.
  - lia.
  - destruct (Z.gtb_spec (ol + (len item + len separator)) (chunk_overlap self)).
    + lia.
    + apply IH; [| lia]. simpl. unfold len at 5. simpl length. unfold len in *. lia.
Qed.

Lemma merge_step_bound (st : merge_state) (split : str) :
  len split <= limit →
  Forall (fun c => len c <= limit + chunk_overlap self) (chunks st)
  ∧ len (join separator (current_chunk st)) <= current_length st
  ∧ len (join separator (current_chunk st)) <= limit + chunk_overlap self →
  let st' := merge_step self separator st split in
  Forall (fun c => len c <= limit + chunk_overlap self) (chunks st')
  ∧ len (join separator (current_chunk st')) <= current_length st'
  ∧ len (join separator (current_chunk st')) <= limit + chunk_overlap self.
Proof.
  intros Hsplit (Hchunks & Htracked & Hcur). unfold merge_step.
  pose proof (len_nonneg separator) as Hsep.
  pose proof (len_nonneg split) as Hsplit0.
  destruct (Z.gtb_spec (current_length st + len split + len separator)
              (chunk_size self)) as [Hover | Hfits].
  - destruct (current_chunk st) as [| p parts] eqn:Hcurrent.
    + rewrite Hcurrent. cbn [chunks current_chunk current_length app join].
      cbn [join] in Htracked. change (len []) with 0 in Htracked.
      split_and!; [done | lia | lia].
    + cbn [chunks current_chunk current_length].
      set (overlap := take_overlap _ _ _ _ _).
      pose proof (take_overlap_weight (reverse (p :: parts)) 0 []
                    ltac:(simpl; unfold len; simpl; lia) overlap_nonneg)
        as Hweight.
      fold overlap in Hweight.
      pose proof (len_join separator overlap) as Hjoin.
      rewrite len_join_snoc.
      split_and!.
      * apply Forall_app. split; [done |]. by repeat constructor.
      * destruct overlap as [| q overlap].
        -- cbn [app]. change (sum_len []) with 0. change (len []) with 0.
           simpl. lia.
        -- cbn [app]. rewrite Hjoin. lia.
      * destruct overlap as [| q overlap]; [lia |].
        rewrite Hjoin.
        assert (Z.max 0 (len (q :: overlap) - 1) = len (q :: overlap) - 1) as Hmax
          by (unfold len; simpl length; lia).
        rewrite Hmax in *. cbv zeta in Hweight. nia.
  - cbn [chunks current_chunk current_length].
    rewrite len_join_snoc.
    destruct (current_chunk st) as [| p parts] eqn:Hcurrent.
    + cbn [app join] in *. change (len []) with 0 in *.
      split_and!; [done | lia | lia].
    + cbn [app]. split_and!; [done | lia | lia].
Qed.

Lemma merge_loop_bound (splits : list str) : ∀ st,
  Forall (fun piece => len piece <= limit) splits →
  Forall (fun c => len c <= limit + chunk_overlap self) (chunks st)
  ∧ len (join separator (current_chunk st)) <= current_length st
  ∧ len (join separator (current_chunk st)) <= limit + chunk_overlap self →
  let st' := fold_left (merge_step self separator) splits st in
  Forall (fun c => len c <= limit + chunk_overlap self) (chunks st')
  ∧ len (join separator (current_chunk st')) <= current_length st'
  ∧ len (join separator (current_chunk st')) <= limit + chunk_overlap self.
Proof.
  induction splits as [| split splits IH]; intros st Hsplits Hinv; [done |].
  apply Forall_cons_1 in Hsplits as [Hsplit Hsplits]. simpl.
  apply IH; [done |]. by apply merge_step_bound.
Qed.

Lemma merge_splits_bound (splits : list str) :
  Forall (fun piece => len piece <= limit) splits →
  Forall (fun c => len c <= limit + chunk_overlap self)
    (_merge_splits self splits separator).
Proof.
  intros Hsplits.
  destruct splits as [| p0 splits0] eqn:Hsplits0; [constructor |].
  rewrite <- Hsplits0 in *.
  destruct (merge_loop_bound splits (mk_state [] [] 0) Hsplits)
    as (Hchunks & _ & Hcur).
  { split_and!; [constructor | done |]. simpl. change (len []) with 0.
    subst splits. apply Forall_cons_1 in Hsplits as [Hp _].
    pose proof (len_nonneg p0). lia. }
  unfold _merge_splits.
  destruct (current_chunk _) as [| p parts]; [done |].
  apply Forall_app. split; [done |]. by repeat constructor.
Qed.
End MergeBound.

Section SplitBound.
Import RecursiveTextSplitter.
Variables (chunk_size chunk_overlap : Z).
Hypothesis sizes_ok : 0 <= chunk_overlap < chunk_size.

Lemma extend_each_Forall {A B} (P : B → Prop) (f : A → result (list B))
    (l : list A) :
  (∀ x, ∃ ys, f x = Ok ys ∧ Forall P ys) →
  ∃ good, extend_each f l = Ok good ∧ Forall P good.
Proof.
  intros Hf. induction l as [| x l IH]; [by exists [] |].
  destruct (Hf x) as (ys & Hys & HP). destruct IH as (good & Hgood & HPgood).
  exists (ys ++ good). simpl. rewrite Hys. simpl. rewrite Hgood.
  split; [done |]. by apply Forall_app.
Qed.

Lemma chars_len (text : str) :
  Forall (fun piece => len piece <= chunk_size)
    (_split_text_with_separator text []).
Proof.
  simpl. apply Forall_forall. intros piece Hin%list_elem_of_In%in_map_iff.
  destruct Hin as (c & <- & _). change (len [c]) with 1. lia.
Qed.

Lemma split_with_bound (seps : list str) : ∀ text,
  last seps = Some [] →
  ∃ chunks, split_with chunk_size chunk_overlap seps text = Ok chunks
            ∧ Forall (fun c => len c <= chunk_size + len seps * chunk_overlap)
                chunks.
Proof.
  induction seps as [| separator rest IH]; intros text Hlast; [done |].
  assert (0 <= len rest) as Hrest by apply len_nonneg.
  assert (len (separator :: rest) = len rest + 1) as ->
    by (unfold len; simpl length; lia).
  assert (∀ limit pieces,
            chunk_size <= limit →
            Forall (fun piece => len piece <= limit) pieces →
            limit + chunk_overlap <= chunk_size + (len rest + 1) * chunk_overlap →
            Forall (fun c => len c <= chunk_size + (len rest + 1) * chunk_overlap)
              (_merge_splits (mk chunk_size chunk_overlap (separator :: rest))
                 pieces separator)) as Hmerge.
  { intros limit pieces Hlimit Hpieces Hle.
    eapply Forall_impl;
      [apply (merge_splits_bound _ separator limit); simpl; (done || lia) |].
    simpl. intros c Hc. lia. }
  cbn [split_with].
  destruct (Z.leb_spec (max_len_or_0 (_split_text_with_separator text separator))
              chunk_size) as [Hfits | Hlarge].
  { eexists. split; [done |].
    apply (Hmerge chunk_size); [lia | | nia].
    apply max_len_or_0_bound; [lia | done]. }
  destruct rest as [| separator' rest'].
  { injection Hlast as ->. eexists. split; [done |].
    apply (Hmerge chunk_size); [lia | apply chars_len | nia]. }
  edestruct (extend_each_Forall (A := str)
               (fun piece : str =>
                  len piece
                  <= chunk_size + len (separator' :: rest') * chunk_overlap))
    as (good & -> & Hgood); last first.
  { eexists. split; [done |].
    apply (Hmerge (chunk_size + len (separator' :: rest') * chunk_overlap));
      [nia | done | lia]. }
  intros piece. cbn beta.
  destruct (Z.leb_spec (len piece) chunk_size).
  { exists [piece]. split; [done |]. repeat constructor. nia. }
  destruct (Z.gtb_spec chunk_size chunk_overlap); [| lia].
  by apply IH.
Qed.
End SplitBound.


(** ** Chunks as runs of pieces *)

Section MergeRuns.
Import RecursiveTextSplitter.
Variables (self : t) (separator : str).

Lemma take_overlap_suffix (reversed_chunk : list str) : ∀ overlap_length kept,
  take_overlap (chunk_overlap self) (len separator) reversed_chunk
    overlap_length kept
  `suffix_of` reverse reversed_chunk ++ kept.
Proof.
  induction reversed_chunk as [| item rest IH]; intros ol kept; simpl.
  - done.
  - destruct (_ >? _).
    + by apply suffix_app_r.
    + rewrite reverse_cons, <- app_assoc. apply IH.
Qed.

Lemma joined_run_snoc (consumed : list str) (split c : str) :
  joined_run separator consumed c →
  joined_run separator (consumed ++ [split]) c.
Proof.
  intros (before & run & after & -> & Hrun & ->).
  exists before, run, (after ++ [split]). by rewrite <- !app_assoc.
Qed.

Lemma merge_step_runs (st : merge_state) (consumed : list str) (split : str) :
  Forall (joined_run separator consumed) (chunks st)
  ∧ current_chunk st `suffix_of` consumed
  ∧ (length (chunks st) + match current_chunk st with [] => 0 | _ :: _ => 1 end
     ≤ length consumed)%nat
  ∧ (consumed ≠ [] → current_chunk st ≠ []) →
  let st' := merge_step self separator st split in
  Forall (joined_run separator (consumed ++ [split])) (chunks st')
  ∧ current_chunk st' `suffix_of` consumed ++ [split]
  ∧ (length (chunks st') + 1 ≤ length (consumed ++ [split]))%nat
  ∧ current_chunk st' ≠ [].
Proof.
  intros (Hchunks & Hsuffix & Hcount & Hnonempty). unfold merge_step.
  assert (Forall (joined_run separator (consumed ++ [split])) (chunks st)) as Hchunks'.
  { eapply Forall_impl; [done |]. intros c. apply joined_run_snoc. }
  destruct (_ >? _); [destruct (current_chunk st) as [| p parts] eqn:Hcurrent |].
  - rewrite Hcurrent. cbn [chunks current_chunk app].
    split_and!; [done | by apply suffix_app_r | | done].
    rewrite length_app. simpl in *. lia.
  - cbn [chunks current_chunk].
    set (overlap := take_overlap _ _ _ _ _).
    assert (overlap `suffix_of` p :: parts) as Hoverlap.
    { pose proof (take_overlap_suffix (reverse (p :: parts)) 0 []) as H.
      by rewrite reverse_involutive, app_nil_r in H. }
    split_and!.
    + apply Forall_app. split; [done |]. repeat constructor.
      destruct Hsuffix as [before ->].
      exists before, (p :: parts), [split]. by rewrite <- app_assoc.
    + apply suffix_app. by etrans.
    + rewrite !length_app. simpl in *. lia.
    + by destruct overlap.
  - cbn [chunks current_chunk].
    split_and!; [done | by apply suffix_app | | by destruct (current_chunk st)].
    rewrite !length_app. simpl.
    destruct (current_chunk st); [| lia].
    destruct consumed; [simpl in *; lia |]. by destruct Hnonempty.
Qed.

Lemma merge_loop_runs (splits : list str) : ∀ st consumed,
  Forall (joined_run separator consumed) (chunks st)
  ∧ current_chunk st `suffix_of` consumed
  ∧ (length (chunks st) + match current_chunk st with [] => 0 | _ :: _ => 1 end
     ≤ length consumed)%nat
  ∧ (consumed ≠ [] → current_chunk st ≠ []) →
  let st' := fold_left (merge_step self separator) splits st in
  Forall (joined_run separator (consumed ++ splits)) (chunks st')
  ∧ current_chunk st' `suffix_of` consumed ++ splits
  ∧ (length (chunks st') + match current_chunk st' with [] => 0 | _ :: _ => 1 end
     ≤ length (consumed ++ splits))%nat
  ∧ (consumed ++ splits ≠ [] → current_chunk st' ≠ []).
Proof.
  induction splits as [| split splits IH]; intros st consumed Hinv.
  - simpl. by rewrite app_nil_r.
  - replace (consumed ++ split :: splits) with ((consumed ++ [split]) ++ splits)
      by (by rewrite <- app_assoc).
    simpl. apply IH.
    destruct (merge_step_runs st consumed split Hinv) as (? & ? & ? & Hne).
    split_and!; [done | done | | by intros _].
    destruct (current_chunk (merge_step self separator st split)); lia.
Qed.

Lemma merge_splits_runs (splits : list str) :
  Forall (joined_run separator splits) (_merge_splits self splits separator)
  ∧ (length (_merge_splits self splits separator) ≤ length splits)%nat
  ∧ (splits ≠ [] → _merge_splits self splits separator ≠ []).
Proof.
  destruct (merge_loop_runs splits (mk_state [] [] 0) [])
    as (Hchunks & Hsuffix & Hcount & Hnonempty).
  { split_and!; [constructor | done | simpl; lia | done]. }
  simpl in *. unfold _merge_splits.
  destruct (current_chunk _) as [| p parts] eqn:Hcurrent.
  - split_and!; [done | lia |]. intros Hsplits. by apply Hnonempty in Hsplits.
  - split_and!.
    + apply Forall_app. split; [done |]. repeat constructor.
      destruct Hsuffix as [before ->].
      exists before, (p :: parts), []. by rewrite app_nil_r.
    + rewrite length_app. simpl in *. lia.
    + intros _. by destruct (chunks _).
Qed.
End MergeRuns.

(** ** What the chunks keep of the text *)

Section JoinMore.
Implicit Types (sep : str) (parts : list str).






End JoinMore.

(** ** The chunks of [_merge_splits] as seeded groups *)

Section MergeParts.
Import RecursiveTextSplitter.
Variables (self : t) (separator : str).





End MergeParts.

(** ** Putting the text together again *)

Section Rebuild.
Import RecursiveTextSplitter.
Variables (self : t) (separator : str).




End Rebuild.

(** ** Pieces and the separators between them *)

Section Between.
Implicit Types (seps : list str) (pieces run : list str).




End Between.

(** ** Dealing the pieces out to the chunks *)

Section Dealing.
Import RecursiveTextSplitter.
Implicit Types (seps : list str) (dealt : list (list str * list str)).













End Dealing.

Section SplitDealt.
Import RecursiveTextSplitter.
Variables (chunk_size chunk_overlap : Z).
Hypothesis sizes_ok : 0 <= chunk_overlap < chunk_size.



End SplitDealt.




(** When a piece is above [chunk_size] and is split again, the chunks
    are joined by the separator of every level they come up through,
    whatever stood between them in the text: with [chunk_size=10] and
    [chunk_overlap=0] the text aaaa. bbbb. cccccccc is cut at the full
    stops, and aaaa and bbbb come back in one chunk with a newline
    between them, which the text does not have.  That chunk is no part
    of the text. *)
Lemma split_replaces_separators :
  ∃ self,
    RecursiveTextSplitter.init 10 0 None = Ok self
    ∧ RecursiveTextSplitter.split self sentences_text
      = Ok [s ("aaaa" ++ nl ++ "bbbb"); s "cccccccc"]
    ∧ ¬ max_len_or_0
          (RecursiveTextSplitter._split_text_with_separator sentences_text
             (s (nl ++ nl))) <= 10
    ∧ ¬ part_of (s ("aaaa" ++ nl ++ "bbbb")) sentences_text.
Proof.
  eexists. split; [reflexivity |]. split_and!.
  - by vm_compute.
  - by vm_compute.
  - intros (before & after & Htext).
    assert ("010"%char ∈ sentences_text) as Hin%list_elem_of_In.
    { rewrite Htext. apply elem_of_app. right. apply elem_of_app. left.
      apply list_elem_of_In. vm_compute. tauto. }
    vm_compute in Hin.
    repeat (destruct Hin as [Hin | Hin]; [discriminate Hin |]). done.
Qed.

(** ** A text without the separator *)
Section OnePiece.
Import RecursiveTextSplitter.

Lemma split_scan_absent (a : ascii) (sep text : str) : ∀ cur,
  a ∉ text → split_scan (a :: sep) O cur text = [reverse cur ++ text].
Proof.
  induction text as [| c text IH]; intros cur Habsent.
  - simpl. by rewrite app_nil_r.
  - apply not_elem_of_cons in Habsent as [Hne Habsent]. simpl.
    destruct (Ascii.eqb_spec a c) as [-> | _]; [done |].
    rewrite IH by done. by rewrite reverse_cons, <- app_assoc.
Qed.

Lemma merge_splits_one (self : t) (p separator : str) :
  _merge_splits self [p] separator = [p].
Proof.
  unfold _merge_splits, merge_step. simpl. by destruct (_ >? _).
Qed.
End OnePiece.


(** ** Several texts, with metadata *)

Section ExtendEach.
Context {A B : Type} (f : A → result (list B)).

Lemma extend_each_total (l : list A) :
  (∀ x, x ∈ l → ∃ ys, f x = Ok ys) →
  ∃ parts, Forall2 (fun x ys => f x = Ok ys) l parts
           ∧ extend_each f l = Ok (concat parts).
Proof.
  induction l as [| x l IH]; intros Hf.
  - exists []. by split; [constructor |].
  - destruct (Hf x) as [ys Hys]; [by left |].
    destruct IH as (parts & Hparts & Hl); [intros; apply Hf; by right |].
    exists (ys :: parts). split; [by constructor |].
    simpl. rewrite Hys. simpl. rewrite Hl. done.
Qed.
End ExtendEach.

Lemma character_split_ok (self : CharacterTextSplitter.t) (text : str) :
  CharacterTextSplitter.chunk_overlap self < CharacterTextSplitter.chunk_size self →
  ∃ windows, CharacterTextSplitter.split self text = Ok windows.
Proof.
  intros Hsizes. unfold CharacterTextSplitter.split, range.
  destruct (Z.eqb_spec (CharacterTextSplitter.chunk_size self
                        - CharacterTextSplitter.chunk_overlap self) 0);
    [lia |]. by eexists.
Qed.

Lemma recursive_split_ok (self : RecursiveTextSplitter.t) (text : str) :
  RecursiveTextSplitter.chunk_overlap self < RecursiveTextSplitter.chunk_size self →
  ∃ chunks, RecursiveTextSplitter.split self text = Ok chunks.
Proof.
  intros Hsizes.
  destruct (split_with_keeps _ _ (concat (RecursiveTextSplitter.separators self))
              Hsizes (RecursiveTextSplitter.separators self) text)
    as (chunks & Hchunks & _); [done |].
  by exists chunks.
Qed.

Section WithMetadata.
Import Chunk.
Context {O : Type} (split : str → result (list str)).
Hypothesis split_ok : ∀ text, ∃ chunks, split text = Ok chunks.
Implicit Types (metadatas : option (list (gmap string (value O)))).

Lemma with_metadata_mismatch texts metadatas :
  length texts ≠ length (paired_metadatas texts metadatas) →
  split_texts_with_metadata_by split texts metadatas
  = Raise (ValueError "Number of texts and metadatas must match").
Proof.
  intros Hne. unfold split_texts_with_metadata_by.
  fold (paired_metadatas texts metadatas).
  destruct (Z.eqb_spec (len texts) (len (paired_metadatas texts metadatas)));
    [unfold len in *; lia | done].
Qed.

Lemma with_metadata_groups texts metadatas :
  length texts = length (paired_metadatas texts metadatas) →
  ∃ parts,
    Forall2 (fun text chunks => split text = Ok chunks) texts parts
    ∧ split_texts_by split texts = Ok (concat parts)
    ∧ split_texts_with_metadata_by split texts metadatas
      = Ok (concat (zip_with (fun meta chunks => imap (chunk_of meta chunks) chunks)
                      (paired_metadatas texts metadatas) parts)).
Proof.
  intros Hlen. unfold split_texts_with_metadata_by, split_texts_by.
  fold (paired_metadatas texts metadatas).
  destruct (Z.eqb_spec (len texts) (len (paired_metadatas texts metadatas)));
    [| unfold len in *; lia].
  simpl. clear e.
  generalize dependent (paired_metadatas texts metadatas).
  induction texts as [| text texts IH]; intros metas Hlen.
  - exists []. destruct metas; [| done]. by split; [constructor |].
  - destruct metas as [| meta metas]; [done |].
    destruct (split_ok text) as [chunks Hchunks].
    destruct (IH metas) as (parts & Hparts & Htexts & Hout);
      [by injection Hlen |].
    exists (chunks :: parts). split; [by constructor |].
    simpl. rewrite Hchunks. simpl. rewrite Htexts, Hout. done.
Qed.
End WithMetadata.

Section Groups.
Import Chunk.
Context {O : Type}.
Implicit Types (metas : list (gmap string (value O))) (parts : list (list str)).

Lemma paired_metadatas_length (texts : list str)
    (metadatas : option (list (gmap string (value O)))) :
  (∀ given, metadatas = Some given → length texts = length given) →
  length texts = length (paired_metadatas texts metadatas).
Proof.
  intros Hgiven. destruct metadatas as [given |]; simpl.
  - by apply Hgiven.
  - by rewrite length_map, length_seq.
Qed.

Lemma groups_texts metas parts :
  length parts = length metas →
  map Chunk.text
    (concat (zip_with (fun meta chunks => imap (chunk_of meta chunks) chunks)
               metas parts))
  = concat parts.
Proof.
  revert metas. induction parts as [| chunks parts IH]; intros [| meta metas] Hlen;
    try done.
  simpl. rewrite map_app, IH by (by injection Hlen). f_equal.
  unfold chunk_of. generalize (len chunks). intros n.
  change (map Chunk.text (imap ?f chunks)) with (Chunk.text <$> imap f chunks).
  rewrite fmap_imap. simpl.
  rewrite <- (list_fmap_id chunks) at 2. apply imap_const.
Qed.

Lemma groups_lookup metas parts (c : Chunk.t O) :
  c ∈ concat (zip_with (fun meta chunks => imap (chunk_of meta chunks) chunks)
                metas parts) →
  ∃ (j i : nat) meta chunks,
    metas !! j = Some meta ∧ parts !! j = Some chunks
    ∧ chunks !! i = Some (Chunk.text c)
    ∧ c = chunk_of meta chunks i (Chunk.text c).
Proof.
  intros (group & Hgroup & Hc)%list_elem_of_In%in_concat.
  apply list_elem_of_In, list_elem_of_lookup in Hgroup as [j Hj].
  apply list_elem_of_In in Hc.
  apply lookup_zip_with_Some in Hj as (meta & chunks & -> & Hmeta & Hchunks).
  apply list_elem_of_lookup in Hc as [i Hi].
  apply list_lookup_imap_Some in Hi as (chunk & Hchunk & ->).
  by exists j, i, meta, chunks.
Qed.
End Groups.

Section BySplit.
Import Chunk.
Context {O : Type} (split : str → result (list str)).
Hypothesis split_ok : ∀ text, ∃ chunks, split text = Ok chunks.

Lemma split_texts_by_parts (texts : list str) :
  returns (split_texts_by split texts)
    (fun chunks => ∃ parts,
       Forall2 (fun text part => split text = Ok part) texts parts
       ∧ chunks = concat parts).
Proof.
  destruct (extend_each_total split texts) as (parts & Hparts & Hchunks);
    [by intros |].
  exists (concat parts). split; [done |]. by exists parts.
Qed.

Lemma with_metadata_by_spec (texts : list str)
    (metadatas : option (list (gmap string (value O)))) :
  (∀ given, metadatas = Some given → length texts = length given) →
  returns (split_texts_with_metadata_by split texts metadatas)
    (fun out =>
       split_texts_by split texts = Ok (map Chunk.text out)
       ∧ Forall indexed_in_total out
       ∧ Forall (comes_from split texts (paired_metadatas texts metadatas)) out).
Proof.
  intros Hlen%paired_metadatas_length.
  destruct (with_metadata_groups split split_ok texts metadatas Hlen)
    as (parts & Hparts & Htexts & Hout).
  eexists. split; [exact Hout |].
  assert (length parts = length (paired_metadatas texts metadatas)) as Hlen'.
  { apply Forall2_length in Hparts. congruence. }
  split_and!.
  - by rewrite groups_texts.
  - apply Forall_forall. intros c Hc.
    apply groups_lookup in Hc as (j & i & meta & chunks & _ & _ & Hi & ->).
    exists (Z.of_nat i), (len chunks). simpl.
    split_and!.
    + rewrite lookup_insert_ne by done. apply lookup_insert_eq.
    + apply lookup_insert_eq.
    + lia.
    + apply lookup_lt_Some in Hi. unfold len. lia.
  - apply Forall_forall. intros c Hc.
    apply groups_lookup in Hc as (j & i & meta & chunks & Hmeta & Hj & Hi & ->).
    destruct (Forall2_lookup_r _ _ _ _ _ Hparts Hj) as (text & Htext & Hsplit).
    exists j, text, meta, chunks. split_and!; try done.
    + simpl. apply list_elem_of_lookup. by exists i.
    + intros key Hk1 Hk2. simpl. by rewrite !lookup_insert_ne.
Qed.
End BySplit.

(** * Further properties of the vector store *)

Section DictMore.
Import PyDict.
Context {K V : Type} `{EqDecision K}.
Implicit Types (d : dict K V) (k : K) (v : V).

Lemma setitem_setitem d k v v' : setitem (setitem d k v) k v' = setitem d k v'.
Proof.
  induction d as [| [k0 v0] d IH]; simpl.
  - by rewrite decide_True.
  - destruct (decide (k = k0)) as [-> | Hne]; simpl.
    + by rewrite decide_True.
    + rewrite decide_False by done. by rewrite IH.
Qed.

Lemma keys_setitem_NoDup d k v : NoDup (keys d) → NoDup (keys (setitem d k v)).
Proof.
  intros Hd. rewrite keys_setitem. destruct (decide (k ∈ keys d)); [done |].
  apply NoDup_app. split_and!; [done | | apply NoDup_singleton].
  intros x Hx ->%list_elem_of_singleton. done.
Qed.

Lemma get_Some_elem_of d k v : get d k = Some v → (k, v) ∈ d.
Proof.
  induction d as [| [k0 v0] d IH]; [done |]. simpl.
  destruct (decide (k = k0)) as [-> | Hne].
  - intros [= ->]. by left.
  - intros Hget. right. by apply IH.
Qed.
End DictMore.

Section StoreFacts.
Import VectorDatabase.
Context {Vector Value Score : Type} (lt : Score → Score → bool).
Implicit Types (self : t Vector Value) (query_vector : Vector)
  (distance_measure : Vector → Vector → Score).

Lemma built_keys_NoDup self : built self → NoDup (PyDict.keys (vectors self)).
Proof.
  induction 1 as [| self key vector meta _ IH]; [constructor |].
  destruct meta; simpl; by apply keys_setitem_NoDup.
Qed.

Lemma scores_of_keys self query_vector distance_measure :
  map fst (scores_of self query_vector distance_measure)
  = PyDict.keys (vectors self).
Proof.
  unfold scores_of, PyDict.items, PyDict.keys. rewrite map_map.
  by apply map_ext.
Qed.

Lemma slice_sublist {A} (x : list A) lo hi : slice x lo hi `sublist_of` x.
Proof.
  unfold slice. etrans; [apply sublist_take | apply sublist_drop].
Qed.

Lemma slice_to_negative {A} (x : list A) (k : Z) :
  k < 0 → slice_to x k = take (Z.to_nat (len x + k)) x.
Proof.
  intros Hk. unfold slice_to, slice, slice_bound.
  change (0 <? 0) with false. cbn match.
  destruct (Z.ltb_spec k 0); [| lia].
  assert (0 <= len x) by (unfold len; lia).
  rewrite (Z.min_l 0) by lia. rewrite Z.sub_0_r. simpl drop.
  f_equal. lia.
Qed.
End StoreFacts.

Section Builders.
Import VectorDatabase.
Context {Vector Value : Type}.
Implicit Types (self : t Vector Value) (embeddings : list Vector).

Lemma abuild_from_list_cons self text texts embedding embeddings :
  abuild_from_list self (text :: texts) (embedding :: embeddings)
  = abuild_from_list (insert self text embedding None) texts embeddings.
Proof. done. Qed.

Lemma abuild_with_metadata_cons self (chunk : text_chunk Value) chunks
    embedding embeddings :
  abuild_from_list_with_metadata self (chunk :: chunks) (embedding :: embeddings)
  = abuild_from_list_with_metadata
      (insert self (chunk_text chunk) embedding (Some (chunk_metadata chunk)))
      chunks embeddings.
Proof. done. Qed.

Lemma abuild_from_list_frame (list_of_text : list string) :
  ∀ self embeddings key,
  key ∉ take (length embeddings) list_of_text →
  PyDict.get (vectors (abuild_from_list self list_of_text embeddings)) key
  = PyDict.get (vectors self) key
  ∧ metadata (abuild_from_list self list_of_text embeddings) = metadata self.
Proof.
  induction list_of_text as [| text texts IH]; intros self embeddings key Hkey;
    [done |].
  destruct embeddings as [| embedding embeddings]; [done |].
  simpl in Hkey. apply not_elem_of_cons in Hkey as [Hne Hkey].
  rewrite abuild_from_list_cons.
  destruct (IH (insert self text embedding None) embeddings key Hkey)
    as [-> ->].
  split; [| done]. by apply get_setitem_ne.
Qed.

Lemma abuild_from_list_last (list_of_text : list string) :
  ∀ self embeddings (i : nat) text embedding,
  list_of_text !! i = Some text → embeddings !! i = Some embedding →
  text ∉ drop (S i) list_of_text →
  PyDict.get (vectors (abuild_from_list self list_of_text embeddings)) text
  = Some embedding.
Proof.
  induction list_of_text as [| text0 texts IH];
    intros self embeddings i text embedding Htext Hemb Hlast; [done |].
  destruct embeddings as [| embedding0 embeddings]; [done |].
  destruct i as [| i]; simpl in *.
  - injection Htext as ->. injection Hemb as ->.
    destruct (abuild_from_list_frame texts (insert self text embedding None)
                embeddings text) as [Hget _].
    { intros Hin. apply Hlast. rewrite drop_0.
      eapply sublist_subseteq; [apply sublist_take | done]. }
    rewrite abuild_from_list_cons, Hget. apply get_setitem_eq.
  - rewrite abuild_from_list_cons. by apply IH with (i := i).
Qed.

Lemma abuild_with_metadata_frame (chunks : list (text_chunk Value)) :
  ∀ self embeddings key,
  key ∉ take (length embeddings) (chunk_texts chunks) →
  PyDict.get (vectors (abuild_from_list_with_metadata self chunks embeddings)) key
  = PyDict.get (vectors self) key
  ∧ metadata (abuild_from_list_with_metadata self chunks embeddings) !! key
    = metadata self !! key.
Proof.
  induction chunks as [| chunk chunks IH]; intros self embeddings key Hkey;
    [done |].
  destruct embeddings as [| embedding embeddings]; [done |].
  simpl in Hkey. apply not_elem_of_cons in Hkey as [Hne Hkey].
  rewrite abuild_with_metadata_cons.
  destruct (IH (insert self (chunk_text chunk) embedding
                  (Some (chunk_metadata chunk))) embeddings key Hkey)
    as [-> ->].
  split; [by apply get_setitem_ne | by apply lookup_insert_ne].
Qed.

Lemma abuild_with_metadata_last (chunks : list (text_chunk Value)) :
  ∀ self embeddings (i : nat) chunk embedding,
  chunks !! i = Some chunk → embeddings !! i = Some embedding →
  chunk_text chunk ∉ drop (S i) (chunk_texts chunks) →
  record (abuild_from_list_with_metadata self chunks embeddings)
    (chunk_text chunk)
  = Some (embedding, Some (chunk_metadata chunk)).
Proof.
  induction chunks as [| chunk0 chunks IH];
    intros self embeddings i chunk embedding Hchunk Hemb Hlast; [done |].
  destruct embeddings as [| embedding0 embeddings]; [done |].
  destruct i as [| i]; simpl in *.
  - injection Hchunk as ->. injection Hemb as ->.
    destruct (abuild_with_metadata_frame chunks
                (insert self (chunk_text chunk) embedding
                   (Some (chunk_metadata chunk)))
                embeddings (chunk_text chunk)) as [Hget Hmeta].
    { intros Hin. apply Hlast. rewrite drop_0.
      eapply sublist_subseteq; [apply sublist_take | done]. }
    rewrite abuild_with_metadata_cons. unfold record.
    rewrite Hget, Hmeta. simpl.
    by rewrite get_setitem_eq, lookup_insert_eq.
  - rewrite abuild_with_metadata_cons. by apply IH with (i := i).
Qed.

Lemma abuild_with_metadata_vectors (chunks : list (text_chunk Value)) :
  ∀ self self' embeddings,
  vectors self = vectors self' →
  vectors (abuild_from_list_with_metadata self chunks embeddings)
  = vectors (abuild_from_list self' (chunk_texts chunks) embeddings).
Proof.
  induction chunks as [| chunk chunks IH]; intros self self' embeddings Hsame;
    [done |].
  destruct embeddings as [| embedding embeddings]; [done |].
  unfold chunk_texts. cbn [map].
  rewrite abuild_with_metadata_cons, abuild_from_list_cons.
  apply IH. simpl. by rewrite Hsame.
Qed.
End Builders.

(** * The further properties *)

(** ** Windows *)

(** X1: for [0 <= chunk_overlap < chunk_size], the windows of
    [CharacterTextSplitter.split] give the text back: the first window
    followed by every later window without its first [chunk_overlap]
    characters is the text. *)
Theorem character_split_round_trip (chunk_size chunk_overlap : Z) (text : str) :
  0 <= chunk_overlap < chunk_size →
  ∃ self windows,
    CharacterTextSplitter.init chunk_size chunk_overlap = Ok self
    ∧ CharacterTextSplitter.split self text = Ok windows
    ∧ without_overlaps (Z.to_nat chunk_overlap) windows = text.
Proof.
  intros Hsizes. eexists _, _. split.
  { unfold CharacterTextSplitter.init.
    destruct (Z.gtb_spec chunk_size chunk_overlap); [done | lia]. }
  split; [by apply character_split_takes |].
  set (step := chunk_size - chunk_overlap).
  assert (0 < step) as Hstep by (unfold step; lia).
  assert (0 <= len text) as Hlen by (unfold len; lia).
  assert (step * ((len text + step - 1) / step) <= len text + step - 1)
    by (apply Z.mul_div_le; lia).
  assert (len text + step - 1 < step * ((len text + step - 1) / step) + step).
  { pose proof (Z.mod_pos_bound (len text + step - 1) step Hstep).
    pose proof (Z.div_mod (len text + step - 1) step ltac:(lia)). lia. }
  destruct (Z.to_nat ((len text + step - 1) / step)) as [| m] eqn:Hm.
  - assert (len text = 0) as Hnil by nia.
    destruct text; [done |]. unfold len in Hnil. simpl in Hnil. lia.
  - replace (Z.to_nat chunk_overlap)
      with (Z.to_nat chunk_size - Z.to_nat step)%nat by (unfold step; lia).
    rewrite windows_cover by lia. apply take_ge.
    unfold len in *. nia.
Qed.

Lemma character_split_round_trip_witness :
  ∃ self windows,
    CharacterTextSplitter.init 4 1 = Ok self
    ∧ CharacterTextSplitter.split self (s "abcdefghij") = Ok windows
    ∧ without_overlaps (Z.to_nat 1) windows = s "abcdefghij".
Proof. apply (character_split_round_trip 4 1 (s "abcdefghij")). lia. Defined.

(** X2: for [0 <= chunk_overlap < chunk_size], two neighbouring windows
    of [CharacterTextSplitter.split] overlap as configured: what follows
    the first [chunk_size - chunk_overlap] characters of a window is how
    the next window begins. *)
Theorem character_split_windows_overlap (chunk_size chunk_overlap : Z)
    (text : str) :
  0 <= chunk_overlap < chunk_size →
  ∃ self windows,
    CharacterTextSplitter.init chunk_size chunk_overlap = Ok self
    ∧ CharacterTextSplitter.split self text = Ok windows
    ∧ ∀ (i : nat) w w',
        windows !! i = Some w → windows !! S i = Some w' →
        drop (Z.to_nat (chunk_size - chunk_overlap)) w `prefix_of` w'.
Proof.
  intros Hsizes. eexists _, _. split.
  { unfold CharacterTextSplitter.init.
    destruct (Z.gtb_spec chunk_size chunk_overlap); [done | lia]. }
  split; [by apply character_split_takes |].
  intros i w w' Hw Hw'.
  apply list_lookup_fmap_Some in Hw as (k & -> & Hk).
  apply list_lookup_fmap_Some in Hw' as (k' & -> & Hk').
  apply lookup_seq in Hk as [-> _]. apply lookup_seq in Hk' as [-> _].
  simpl. rewrite skipn_firstn_comm, drop_drop.
  set (rest := drop _ text).
  replace (drop (Z.to_nat (chunk_size - chunk_overlap)
                 + i * Z.to_nat (chunk_size - chunk_overlap)) text)
    with rest by (unfold rest; f_equal; lia).
  exists (drop (Z.to_nat chunk_size - Z.to_nat (chunk_size - chunk_overlap))
            (take (Z.to_nat chunk_size) rest)).
  rewrite <- (take_drop (Z.to_nat chunk_size
                         - Z.to_nat (chunk_size - chunk_overlap))
                (take (Z.to_nat chunk_size) rest)) at 1.
  f_equal. rewrite take_take. f_equal. lia.
Qed.

Lemma character_split_windows_overlap_witness :
  ∃ self windows,
    CharacterTextSplitter.init 4 1 = Ok self
    ∧ CharacterTextSplitter.split self (s "abcdefghij") = Ok windows
    ∧ ∀ (i : nat) w w',
        windows !! i = Some w → windows !! S i = Some w' →
        drop (Z.to_nat (4 - 1)) w `prefix_of` w'.
Proof. apply (character_split_windows_overlap 4 1 (s "abcdefghij")). lia. Defined.

(** ** Pieces and chunks of the recursive splitter *)

(** X3: joining the pieces that [_split_text_with_separator] returns
    with the separator gives the text back, for every text and every
    separator, the empty one included. *)
Theorem split_text_with_separator_round_trip (text separator : str) :
  join separator
    (RecursiveTextSplitter._split_text_with_separator text separator)
  = text.
Proof. apply join_split_text_with_separator. Qed.

(** X4: when no piece is longer than [chunk_size] and [chunk_overlap] is
    not negative, no chunk of [_merge_splits] is longer than
    [chunk_size + chunk_overlap]; with [chunk_overlap = 0] no chunk is
    longer than [chunk_size]. *)
Theorem merge_splits_size (self : RecursiveTextSplitter.t)
    (splits : list str) (separator : str) :
  0 <= RecursiveTextSplitter.chunk_overlap self →
  Forall (fun piece => len piece <= RecursiveTextSplitter.chunk_size self)
    splits →
  Forall (fun c => len c <= RecursiveTextSplitter.chunk_size self
                            + RecursiveTextSplitter.chunk_overlap self)
    (RecursiveTextSplitter._merge_splits self splits separator).
Proof. intros Hoverlap Hsplits. by apply merge_splits_bound. Qed.

Lemma merge_splits_size_witness :
  Forall (fun c => len c <= 10 + 6)
    (RecursiveTextSplitter._merge_splits
       (RecursiveTextSplitter.mk 10 6 RecursiveTextSplitter.default_separators)
       [s "aaaa"; s "bbbbbbbbb"] (s (nl ++ nl))).
Proof.
  apply (merge_splits_size
           (RecursiveTextSplitter.mk 10 6 RecursiveTextSplitter.default_separators)
           [s "aaaa"; s "bbbbbbbbb"] (s (nl ++ nl))).
  - simpl. lia.
  - repeat constructor; by vm_compute.
Defined.

(** X5: for [0 <= chunk_overlap < chunk_size] and a separator list that
    ends with the empty separator, as the default list does, [split]
    returns chunks none of which is longer than [chunk_size] plus
    [chunk_overlap] times the number of separators. *)
Theorem split_size (chunk_size chunk_overlap : Z)
    (separators : option (list str)) (text : str) :
  0 <= chunk_overlap < chunk_size →
  last (RecursiveTextSplitter.separators_or_default separators) = Some [] →
  ∃ self chunks,
    RecursiveTextSplitter.init chunk_size chunk_overlap separators = Ok self
    ∧ RecursiveTextSplitter.split self text = Ok chunks
    ∧ Forall (fun c => len c <= chunk_size
                              + len (RecursiveTextSplitter.separators self)
                                * chunk_overlap)
        chunks.
Proof.
  intros Hsizes Hlast.
  destruct (split_with_bound chunk_size chunk_overlap Hsizes
              (RecursiveTextSplitter.separators_or_default separators) text Hlast)
    as (chunks & Hsplit & Hbound).
  eexists _, chunks. split; [apply init_ok; lia |]. by split.
Qed.

Lemma split_size_witness :
  ∃ self chunks,
    RecursiveTextSplitter.init 10 6 None = Ok self
    ∧ RecursiveTextSplitter.split self two_paragraphs_text = Ok chunks
    ∧ Forall (fun c => len c <= 10 + len (RecursiveTextSplitter.separators self) * 6)
        chunks.
Proof.
  apply (split_size 10 6 None two_paragraphs_text); [lia | reflexivity].
Defined.

(** X6: with [chunk_overlap = 0], a positive [chunk_size] and a separator
    list that ends with the empty separator, no chunk returned by
    [split] is longer than [chunk_size]. *)
Theorem split_size_without_overlap (chunk_size : Z)
    (separators : option (list str)) (text : str) :
  0 < chunk_size →
  last (RecursiveTextSplitter.separators_or_default separators) = Some [] →
  ∃ self chunks,
    RecursiveTextSplitter.init chunk_size 0 separators = Ok self
    ∧ RecursiveTextSplitter.split self text = Ok chunks
    ∧ Forall (fun c => len c <= chunk_size) chunks.
Proof.
  intros Hsize Hlast.
  destruct (split_with_bound chunk_size 0 ltac:(lia)
              (RecursiveTextSplitter.separators_or_default separators) text Hlast)
    as (chunks & Hsplit & Hbound).
  eexists _, chunks. split; [apply init_ok; lia |]. split; [done |].
  eapply Forall_impl; [exact Hbound |]. simpl. intros c Hc. lia.
Qed.

Lemma split_size_without_overlap_witness :
  ∃ self chunks,
    RecursiveTextSplitter.init 6 0 None = Ok self
    ∧ RecursiveTextSplitter.split self paragraphs_text = Ok chunks
    ∧ Forall (fun c => len c <= 6) chunks.
Proof.
  apply (split_size_without_overlap 6 None paragraphs_text); [lia | reflexivity].
Defined.

(** X7: every chunk of [_merge_splits] is a non-empty run of consecutive
    pieces joined with the separator: pieces are never cut, reordered or
    joined across a gap. *)
Theorem merge_splits_chunks_are_runs (self : RecursiveTextSplitter.t)
    (splits : list str) (separator : str) :
  Forall (joined_run separator splits)
    (RecursiveTextSplitter._merge_splits self splits separator).
Proof. apply merge_splits_runs. Qed.

(** X8: [_merge_splits] returns at most as many chunks as it receives
    pieces, and at least one chunk when there is a piece. *)
Theorem merge_splits_count (self : RecursiveTextSplitter.t)
    (splits : list str) (separator : str) :
  (length (RecursiveTextSplitter._merge_splits self splits separator)
   ≤ length splits)%nat
  ∧ (splits ≠ [] →
     RecursiveTextSplitter._merge_splits self splits separator ≠ []).
Proof.
  destruct (merge_splits_runs self separator splits) as (_ & Hcount & Hne).
  by split.
Qed.

(** X9: a text that has no newline and is not longer than [chunk_size]
    is returned by [split], with the default separators, as the single
    chunk that is the text itself. *)
Theorem split_fitting_line (chunk_size chunk_overlap : Z) (text : str) :
  0 <= chunk_overlap < chunk_size →
  "010"%char ∉ text →
  len text <= chunk_size →
  ∃ self,
    RecursiveTextSplitter.init chunk_size chunk_overlap None = Ok self
    ∧ RecursiveTextSplitter.split self text = Ok [text].
Proof.
  intros Hsizes Hline Hfits.
  eexists. split; [apply init_ok; lia |].
  unfold RecursiveTextSplitter.split.
  cbn [RecursiveTextSplitter.chunk_size RecursiveTextSplitter.chunk_overlap
       RecursiveTextSplitter.separators
       RecursiveTextSplitter.separators_or_default].
  unfold RecursiveTextSplitter.default_separators.
  assert (RecursiveTextSplitter._split_text_with_separator text
            (s (String "010" (String "010" EmptyString))) = [text]) as Hpieces.
  { unfold RecursiveTextSplitter._split_text_with_separator, str_split. simpl.
    by rewrite split_scan_absent. }
  rewrite split_with_first_fits; rewrite Hpieces.
  - by rewrite merge_splits_one.
  - done.
Qed.

Lemma split_fitting_line_witness :
  ∃ self,
    RecursiveTextSplitter.init 1000 200 None = Ok self
    ∧ RecursiveTextSplitter.split self (s "I like to eat broccoli and bananas.")
      = Ok [s "I like to eat broccoli and bananas."].
Proof.
  apply (split_fitting_line 1000 200 (s "I like to eat broccoli and bananas."));
    [lia | | by vm_compute].
  intros Hin%list_elem_of_In. vm_compute in Hin.
  repeat (destruct Hin as [Hin | Hin]; [discriminate Hin |]). done.
Defined.

(** ** Several texts *)

(** X10: for splitters whose [chunk_overlap] is below their
    [chunk_size], as [__init__] ensures, [split_texts] of either class
    returns, without raising, the chunks of the first text followed by
    the chunks of the second text and so on, each text being cut by
    [split] on its own. *)
Theorem split_texts_concat (cself : CharacterTextSplitter.t)
    (rself : RecursiveTextSplitter.t) (texts : list str) :
  CharacterTextSplitter.chunk_overlap cself < CharacterTextSplitter.chunk_size cself →
  RecursiveTextSplitter.chunk_overlap rself < RecursiveTextSplitter.chunk_size rself →
  returns (CharacterTextSplitter.split_texts cself texts)
    (fun chunks => ∃ parts,
       Forall2 (fun text part => CharacterTextSplitter.split cself text = Ok part)
         texts parts
       ∧ chunks = concat parts)
  ∧ returns (RecursiveTextSplitter.split_texts rself texts)
      (fun chunks => ∃ parts,
         Forall2 (fun text part => RecursiveTextSplitter.split rself text = Ok part)
           texts parts
         ∧ chunks = concat parts).
Proof.
  intros Hc Hr. split.
  - apply split_texts_by_parts. intros text. by apply character_split_ok.
  - apply split_texts_by_parts. intros text. by apply recursive_split_ok.
Qed.

Lemma split_texts_concat_witness :
  returns (CharacterTextSplitter.split_texts (CharacterTextSplitter.mk 4 1)
             [s "abcdefghij"; s "xyz"])
    (fun chunks => ∃ parts,
       Forall2 (fun text part =>
                  CharacterTextSplitter.split (CharacterTextSplitter.mk 4 1) text
                  = Ok part)
         [s "abcdefghij"; s "xyz"] parts
       ∧ chunks = concat parts)
  ∧ returns (RecursiveTextSplitter.split_texts
               (RecursiveTextSplitter.mk 10 6
                  RecursiveTextSplitter.default_separators)
               [s "abcdefghij"; s "xyz"])
      (fun chunks => ∃ parts,
         Forall2 (fun text part =>
                    RecursiveTextSplitter.split
                      (RecursiveTextSplitter.mk 10 6
                         RecursiveTextSplitter.default_separators) text
                    = Ok part)
           [s "abcdefghij"; s "xyz"] parts
         ∧ chunks = concat parts).
Proof.
  apply (split_texts_concat (CharacterTextSplitter.mk 4 1)
           (RecursiveTextSplitter.mk 10 6 RecursiveTextSplitter.default_separators)
           [s "abcdefghij"; s "xyz"]); simpl; lia.
Defined.

(** X11: [split_texts_with_metadata] of either class raises a
    [ValueError] when it is given a list of metadata whose length is not
    the number of texts, whatever the splitter and before any text is
    cut. *)
Theorem split_texts_with_metadata_mismatch {O : Type}
    (cself : CharacterTextSplitter.t) (rself : RecursiveTextSplitter.t)
    (texts : list str) (given : list (gmap string (Chunk.value O))) :
  length texts ≠ length given →
  CharacterTextSplitter.split_texts_with_metadata cself texts (Some given)
    = Raise (ValueError "Number of texts and metadatas must match")
  ∧ RecursiveTextSplitter.split_texts_with_metadata rself texts (Some given)
    = Raise (ValueError "Number of texts and metadatas must match").
Proof.
  intros Hne. split; by apply with_metadata_mismatch.
Qed.

Lemma split_texts_with_metadata_mismatch_witness :
  CharacterTextSplitter.split_texts_with_metadata (O := Empty_set)
      (CharacterTextSplitter.mk 4 1) [s "abcdefghij"; s "xyz"] (Some [∅])
    = Raise (ValueError "Number of texts and metadatas must match")
  ∧ RecursiveTextSplitter.split_texts_with_metadata (O := Empty_set)
      (RecursiveTextSplitter.mk 10 6 RecursiveTextSplitter.default_separators)
      [s "abcdefghij"; s "xyz"] (Some [∅])
    = Raise (ValueError "Number of texts and metadatas must match").
Proof.
  apply (split_texts_with_metadata_mismatch (O := Empty_set)
           (CharacterTextSplitter.mk 4 1)
           (RecursiveTextSplitter.mk 10 6 RecursiveTextSplitter.default_separators)
           [s "abcdefghij"; s "xyz"] [∅]).
  simpl. lia.
Defined.

Section WithMetadataOfClasses.
Context {O : Type} (cself : CharacterTextSplitter.t)
  (rself : RecursiveTextSplitter.t) (texts : list str)
  (metadatas : option (list (gmap string (Chunk.value O)))).
Hypothesis csizes :
  CharacterTextSplitter.chunk_overlap cself < CharacterTextSplitter.chunk_size cself.
Hypothesis rsizes :
  RecursiveTextSplitter.chunk_overlap rself < RecursiveTextSplitter.chunk_size rself.
Hypothesis lengths :
  ∀ given, metadatas = Some given → length texts = length given.

Lemma character_with_metadata_spec :
  returns (CharacterTextSplitter.split_texts_with_metadata cself texts metadatas)
    (fun out =>
       CharacterTextSplitter.split_texts cself texts = Ok (map Chunk.text out)
       ∧ Forall indexed_in_total out
       ∧ Forall (comes_from (CharacterTextSplitter.split cself) texts
                   (paired_metadatas texts metadatas)) out).
Proof.
  apply with_metadata_by_spec; [| done].
  intros text. by apply character_split_ok.
Qed.

Lemma recursive_with_metadata_spec :
  returns (RecursiveTextSplitter.split_texts_with_metadata rself texts metadatas)
    (fun out =>
       RecursiveTextSplitter.split_texts rself texts = Ok (map Chunk.text out)
       ∧ Forall indexed_in_total out
       ∧ Forall (comes_from (RecursiveTextSplitter.split rself) texts
                   (paired_metadatas texts metadatas)) out).
Proof.
  apply with_metadata_by_spec; [| done].
  intros text. by apply recursive_split_ok.
Qed.
End WithMetadataOfClasses.

Lemma returns_impl {A : Type} (r : result A) (P Q : A → Prop) :
  (∀ a, P a → Q a) → returns r P → returns r Q.
Proof. intros HPQ (a & Hr & HP). exists a. auto. Qed.

(** X12: when the metadata list, if given, has one entry per text,
    [split_texts_with_metadata] of either class returns, without
    raising, chunks whose texts are, in order, exactly what
    [split_texts] returns for the same texts. *)
Theorem split_texts_with_metadata_texts {O : Type}
    (cself : CharacterTextSplitter.t) (rself : RecursiveTextSplitter.t)
    (texts : list str)
    (metadatas : option (list (gmap string (Chunk.value O)))) :
  CharacterTextSplitter.chunk_overlap cself < CharacterTextSplitter.chunk_size cself →
  RecursiveTextSplitter.chunk_overlap rself < RecursiveTextSplitter.chunk_size rself →
  (∀ given, metadatas = Some given → length texts = length given) →
  returns (CharacterTextSplitter.split_texts_with_metadata cself texts metadatas)
    (fun out =>
       CharacterTextSplitter.split_texts cself texts = Ok (map Chunk.text out))
  ∧ returns (RecursiveTextSplitter.split_texts_with_metadata rself texts metadatas)
      (fun out =>
         RecursiveTextSplitter.split_texts rself texts = Ok (map Chunk.text out)).
Proof.
  intros Hc Hr Hlen. split.
  - eapply returns_impl; [| by apply character_with_metadata_spec].
    by intros out (? & _).
  - eapply returns_impl; [| by apply recursive_with_metadata_spec].
    by intros out (? & _).
Qed.

(** X13: under the same conditions, every chunk returned by
    [split_texts_with_metadata] carries an integer [chunk_index] and an
    integer [total_chunks] with [0 <= chunk_index < total_chunks]. *)
Theorem split_texts_with_metadata_indexed {O : Type}
    (cself : CharacterTextSplitter.t) (rself : RecursiveTextSplitter.t)
    (texts : list str)
    (metadatas : option (list (gmap string (Chunk.value O)))) :
  CharacterTextSplitter.chunk_overlap cself < CharacterTextSplitter.chunk_size cself →
  RecursiveTextSplitter.chunk_overlap rself < RecursiveTextSplitter.chunk_size rself →
  (∀ given, metadatas = Some given → length texts = length given) →
  returns (CharacterTextSplitter.split_texts_with_metadata cself texts metadatas)
    (Forall indexed_in_total)
  ∧ returns (RecursiveTextSplitter.split_texts_with_metadata rself texts metadatas)
      (Forall indexed_in_total).
Proof.
  intros Hc Hr Hlen. split.
  - eapply returns_impl; [| by apply character_with_metadata_spec].
    by intros out (_ & ? & _).
  - eapply returns_impl; [| by apply recursive_with_metadata_spec].
    by intros out (_ & ? & _).
Qed.

(** X14: when one metadata dict is given per text, every chunk returned
    by [split_texts_with_metadata] was cut by [split] from one of the
    texts and carries the metadata given for that text under every key
    other than [chunk_index] and [total_chunks]. *)
Theorem split_texts_with_metadata_provenance {O : Type}
    (cself : CharacterTextSplitter.t) (rself : RecursiveTextSplitter.t)
    (texts : list str) (given : list (gmap string (Chunk.value O))) :
  CharacterTextSplitter.chunk_overlap cself < CharacterTextSplitter.chunk_size cself →
  RecursiveTextSplitter.chunk_overlap rself < RecursiveTextSplitter.chunk_size rself →
  length texts = length given →
  returns (CharacterTextSplitter.split_texts_with_metadata cself texts (Some given))
    (Forall (comes_from (CharacterTextSplitter.split cself) texts given))
  ∧ returns (RecursiveTextSplitter.split_texts_with_metadata rself texts (Some given))
      (Forall (comes_from (RecursiveTextSplitter.split rself) texts given)).
Proof.
  intros Hc Hr Hlen.
  assert (∀ given', Some given = Some given' → length texts = length given')
    as Hlen' by (by intros ? [= <-]).
  split.
  - eapply returns_impl;
      [| by apply (character_with_metadata_spec cself texts (Some given))].
    by intros out (_ & _ & ?).
  - eapply returns_impl;
      [| by apply (recursive_with_metadata_spec rself texts (Some given))].
    by intros out (_ & _ & ?).
Qed.

(** A chunk cut from the text number [j], with the source name that
    stands for that number. *)
Lemma comes_from_default {O : Type} (split : str → result (list str))
    (texts : list str) (c : Chunk.t O) :
  comes_from split texts (paired_metadatas texts None) c →
  ∃ (j : nat) text chunks,
    texts !! j = Some text ∧ split text = Ok chunks ∧ Chunk.text c ∈ chunks
    ∧ Chunk.metadata c !! "source"
      = Some (Chunk.PyStr (Chunk.document_name j)).
Proof.
  intros (j & text & meta & chunks & Htext & Hmeta & Hsplit & Hin & Hkeys).
  exists j, text, chunks. split_and!; try done.
  rewrite Hkeys by done. simpl in Hmeta.
  apply list_lookup_fmap_Some in Hmeta as (i & -> & Hi).
  apply lookup_seq in Hi as [-> _]. simpl. apply lookup_singleton_eq.
Qed.

(** X15: when no metadata is given, every chunk returned by
    [split_texts_with_metadata] was cut from the text at some position
    [j] of the list and has the source [document_j] made of that
    position. *)
Theorem split_texts_with_metadata_default_source {O : Type}
    (cself : CharacterTextSplitter.t) (rself : RecursiveTextSplitter.t)
    (texts : list str) :
  CharacterTextSplitter.chunk_overlap cself < CharacterTextSplitter.chunk_size cself →
  RecursiveTextSplitter.chunk_overlap rself < RecursiveTextSplitter.chunk_size rself →
  returns (CharacterTextSplitter.split_texts_with_metadata (O := O) cself texts None)
    (Forall (fun c => ∃ (j : nat) text chunks,
               texts !! j = Some text
               ∧ CharacterTextSplitter.split cself text = Ok chunks
               ∧ Chunk.text c ∈ chunks
               ∧ Chunk.metadata c !! "source"
                 = Some (Chunk.PyStr (Chunk.document_name j))))
  ∧ returns (RecursiveTextSplitter.split_texts_with_metadata (O := O) rself texts None)
      (Forall (fun c => ∃ (j : nat) text chunks,
                 texts !! j = Some text
                 ∧ RecursiveTextSplitter.split rself text = Ok chunks
                 ∧ Chunk.text c ∈ chunks
                 ∧ Chunk.metadata c !! "source"
                   = Some (Chunk.PyStr (Chunk.document_name j)))).
Proof.
  intros Hc Hr. split.
  - eapply returns_impl;
      [| by apply (character_with_metadata_spec (O := O) cself texts None)].
    intros out (_ & _ & Hfrom). eapply Forall_impl; [exact Hfrom |].
    intros c. apply comes_from_default.
  - eapply returns_impl;
      [| by apply (recursive_with_metadata_spec (O := O) rself texts None)].
    intros out (_ & _ & Hfrom). eapply Forall_impl; [exact Hfrom |].
    intros c. apply comes_from_default.
Qed.

(** ** The store *)

Section SearchMore.
Import VectorDatabase.
Context {Vector Value Score : Type} (lt : Score → Score → bool).
Implicit Types (self : t Vector Value) (query_vector : Vector)
  (distance_measure : Vector → Vector → Score).

Lemma sorted_keys self query_vector distance_measure :
  map fst (PySorted.sorted snd lt true
             (scores_of self query_vector distance_measure))
  ≡ₚ PyDict.keys (vectors self).
Proof.
  rewrite <- (scores_of_keys self query_vector distance_measure).
  change (map fst ?l) with (fst <$> l). by rewrite sorted_perm.
Qed.
End SearchMore.

(** X16: inserting twice under one key leaves the store as the last
    insertion alone would: the same vector and metadata twice is the
    same as once, and a second insertion that brings metadata hides the
    first one altogether. *)
Theorem insert_twice {Vector Value : Type}
    (self : VectorDatabase.t Vector Value) (key : string)
    (v v' : Vector) (m : option (gmap string Value)) (m' : gmap string Value) :
  VectorDatabase.insert (VectorDatabase.insert self key v m) key v m
  = VectorDatabase.insert self key v m
  ∧ VectorDatabase.insert (VectorDatabase.insert self key v m) key v' (Some m')
    = VectorDatabase.insert self key v' (Some m').
Proof.
  split.
  - destruct m; simpl; rewrite setitem_setitem; [| done].
    by rewrite insert_insert_eq.
  - destruct m; simpl; rewrite setitem_setitem; [| done].
    by rewrite insert_insert_eq.
Qed.

(** X18: a store that was made by [__init__] and any number of [insert]
    never returns a key twice from [search], whatever the query, [k],
    the measure and the order on scores. *)
Theorem search_keys_distinct {Vector Value Score : Type}
    (lt : Score → Score → bool) (self : VectorDatabase.t Vector Value)
    (query_vector : Vector) (k : Z)
    (distance_measure : Vector → Vector → Score) (return_metadata : bool) :
  built self →
  NoDup (map fst
           (map VectorDatabase.hit_entry
              (VectorDatabase.search lt self query_vector k distance_measure
                 return_metadata))).
Proof.
  intros Hbuilt. rewrite search_entries.
  apply (sublist_NoDup _
           (map fst (PySorted.sorted snd lt true
                       (VectorDatabase.scores_of self query_vector
                          distance_measure)))).
  - rewrite sorted_keys. by apply built_keys_NoDup.
  - change (map fst ?l) with (fst <$> l). apply fmap_sublist, slice_sublist.
Qed.

Lemma search_keys_distinct_witness :
  NoDup (map fst
           (map VectorDatabase.hit_entry
              (VectorDatabase.search Z.ltb sample_store 2 2 Z.mul true))).
Proof.
  apply (search_keys_distinct Z.ltb sample_store 2 2 Z.mul true).
  repeat constructor.
Defined.

Lemma slice_to_prefix {A} (l : list A) (k k' : Z) :
  0 <= k <= k' → slice_to l k `prefix_of` slice_to l k'.
Proof.
  intros Hk. rewrite !slice_to_take by lia.
  replace (take (Z.to_nat k) l) with (take (Z.to_nat k) (take (Z.to_nat k') l)).
  - apply prefix_take.
  - rewrite take_take. f_equal. lia.
Qed.

Lemma map_prefix {A B} (f : A → B) (l1 l2 : list A) :
  l1 `prefix_of` l2 → map f l1 `prefix_of` map f l2.
Proof. intros [rest ->]. exists (map f rest). apply map_app. Qed.

(** X19: asking [search] for more results only adds results at the end:
    for [0 <= k <= k'] the results for [k] are the first results for
    [k']. *)
Theorem search_more_results {Vector Value Score : Type}
    (lt : Score → Score → bool) (self : VectorDatabase.t Vector Value)
    (query_vector : Vector) (k k' : Z)
    (distance_measure : Vector → Vector → Score) (return_metadata : bool) :
  0 <= k <= k' →
  VectorDatabase.search lt self query_vector k distance_measure return_metadata
  `prefix_of`
  VectorDatabase.search lt self query_vector k' distance_measure return_metadata.
Proof.
  intros Hk. unfold VectorDatabase.search.
  destruct return_metadata; by apply map_prefix, slice_to_prefix.
Qed.

Lemma search_more_results_witness :
  VectorDatabase.search Z.ltb sample_store 2 1 Z.mul true
  `prefix_of` VectorDatabase.search Z.ltb sample_store 2 3 Z.mul true.
Proof. apply (search_more_results Z.ltb sample_store 2 1 3 Z.mul true). lia. Defined.

(** X20: a negative [k] does not make [search] fail or return nothing:
    the slice [[:k]] then drops the last [-k] results of the ranking, so
    [search] returns [max(0, n + k)] results for a store of [n]
    records. *)
Theorem search_negative_k {Vector Value Score : Type}
    (lt : Score → Score → bool) (self : VectorDatabase.t Vector Value)
    (query_vector : Vector) (k : Z)
    (distance_measure : Vector → Vector → Score) (return_metadata : bool) :
  k < 0 →
  len (VectorDatabase.search lt self query_vector k distance_measure
         return_metadata)
  = Z.max 0 (len (VectorDatabase.vectors self) + k).
Proof.
  intros Hk.
  assert (len (map VectorDatabase.hit_entry
                 (VectorDatabase.search lt self query_vector k distance_measure
                    return_metadata))
          = Z.max 0 (len (VectorDatabase.vectors self) + k)) as Hlen.
  { rewrite search_entries, slice_to_negative by done.
    unfold len. rewrite length_take.
    rewrite !(sorted_perm snd lt true
                (VectorDatabase.scores_of self query_vector distance_measure)).
    unfold VectorDatabase.scores_of, PyDict.items. rewrite length_map. lia. }
  unfold len in *. by rewrite length_map in Hlen.
Qed.

Lemma search_negative_k_witness :
  len (VectorDatabase.search Z.ltb sample_store 2 (-1) Z.mul false)
  = Z.max 0 (len (VectorDatabase.vectors sample_store) + -1).
Proof. apply (search_negative_k Z.ltb sample_store 2 (-1) Z.mul false). lia. Defined.

(** X21: a record that was just inserted is found by a [search] that
    asks for at least as many results as there are records: its key is
    among the results, with the score of the inserted vector. *)
Theorem search_finds_inserted {Vector Value Score : Type}
    (lt : Score → Score → bool) (self : VectorDatabase.t Vector Value)
    (key : string) (vector : Vector) (meta : option (gmap string Value))
    (query_vector : Vector) (k : Z)
    (distance_measure : Vector → Vector → Score) (return_metadata : bool) :
  let db := VectorDatabase.insert self key vector meta in
  len (VectorDatabase.vectors db) <= k →
  (key, distance_measure query_vector vector)
  ∈ map VectorDatabase.hit_entry
      (VectorDatabase.search lt db query_vector k distance_measure
         return_metadata).
Proof.
  intros db Hk.
  assert (0 <= k) by (unfold len in Hk; lia).
  rewrite search_entries, slice_to_take by done.
  rewrite take_ge.
  - rewrite sorted_perm. unfold VectorDatabase.scores_of, PyDict.items.
    apply list_elem_of_In, in_map_iff. exists (key, vector). split; [done |].
    apply list_elem_of_In, get_Some_elem_of.
    unfold db. destruct meta; apply get_setitem_eq.
  - rewrite (sorted_perm snd lt true
               (VectorDatabase.scores_of db query_vector distance_measure)).
    unfold VectorDatabase.scores_of, PyDict.items. rewrite length_map.
    unfold len in Hk. lia.
Qed.

Lemma search_finds_inserted_witness :
  ("d", Z.mul 2 5)
  ∈ map VectorDatabase.hit_entry
      (VectorDatabase.search Z.ltb
         (VectorDatabase.insert sample_store "d" 5 None) 2 4 Z.mul false).
Proof.
  apply (search_finds_inserted Z.ltb sample_store "d" 5 None 2 4 Z.mul false).
  by vm_compute.
Defined.

(** X22: [search_by_text] never raises: asked for texts with metadata it
    returns pairs, asked for texts alone it returns texts, and both name
    the same keys in the same order, which are the keys of the results
    of [search] for the embedded query; the metadata of a pair is the
    one stored for its key, or the empty dict. *)
Theorem search_by_text_texts {Vector Value Score : Type}
    (lt : Score → Score → bool) (self : VectorDatabase.t Vector Value)
    (get_embedding : string → Vector) (query_text : string) (k : Z)
    (distance_measure : Vector → Vector → Score) :
  ∃ pairs texts,
    VectorDatabase.search_by_text lt self get_embedding query_text k
      distance_measure true true
    = Ok (VectorDatabase.TextsWithMetadata pairs)
    ∧ VectorDatabase.search_by_text lt self get_embedding query_text k
        distance_measure true false
      = Ok (VectorDatabase.Texts texts)
    ∧ map fst pairs = texts
    ∧ texts
      = map fst
          (map VectorDatabase.hit_entry
             (VectorDatabase.search lt self (get_embedding query_text) k
                distance_measure false))
    ∧ Forall (fun pair =>
                snd pair
                = default ∅ (VectorDatabase.metadata self !! fst pair))
        pairs.
Proof.
  unfold VectorDatabase.search_by_text, VectorDatabase.search.
  set (ranked := slice_to _ k). clearbody ranked.
  exists (map (fun r => (fst r, default ∅ (VectorDatabase.metadata self !! fst r)))
            ranked), (map fst ranked).
  split_and!.
  - induction ranked as [| r ranked IH]; [done |].
    simpl in *. destruct (extend_each _ _) as [pairs |]; [| done].
    simpl in *. by injection IH as ->.
  - by rewrite map_map.
  - rewrite map_map. by apply map_ext.
  - rewrite !map_map. by apply map_ext.
  - apply Forall_forall. intros pair Hin%list_elem_of_In%in_map_iff.
    by destruct Hin as (r & <- & _).
Qed.

(** ** Building the store from a list *)

(** X23: [abuild_from_list] writes no metadata, and it leaves the vector
    of a key as it was unless the key is one of the texts that received
    an embedding: when fewer embeddings than texts come back, the texts
    beyond the last embedding are not inserted. *)
Theorem abuild_from_list_untouched {Vector Value : Type}
    (self : VectorDatabase.t Vector Value) (list_of_text : list string)
    (embeddings : list Vector) (key : string) :
  key ∉ take (length embeddings) list_of_text →
  VectorDatabase.retrieve_from_key
    (VectorDatabase.abuild_from_list self list_of_text embeddings) key
  = (fst (VectorDatabase.retrieve_from_key self key),
     VectorDatabase.abuild_from_list self list_of_text embeddings)
  ∧ VectorDatabase.metadata
      (VectorDatabase.abuild_from_list self list_of_text embeddings)
    = VectorDatabase.metadata self.
Proof.
  intros Hkey.
  destruct (abuild_from_list_frame list_of_text self embeddings key Hkey)
    as [Hget Hmeta].
  unfold VectorDatabase.retrieve_from_key. simpl. by rewrite Hget.
Qed.

Lemma abuild_from_list_untouched_witness :
  VectorDatabase.retrieve_from_key
    (VectorDatabase.abuild_from_list sample_store ["x"; "b"; "y"] [10; 20]) "y"
  = (fst (VectorDatabase.retrieve_from_key sample_store "y"),
     VectorDatabase.abuild_from_list sample_store ["x"; "b"; "y"] [10; 20])
  ∧ VectorDatabase.metadata
      (VectorDatabase.abuild_from_list sample_store ["x"; "b"; "y"] [10; 20])
    = VectorDatabase.metadata sample_store.
Proof.
  apply (abuild_from_list_untouched sample_store ["x"; "b"; "y"] [10; 20] "y").
  simpl. intros Hin.
  repeat (apply elem_of_cons in Hin as [Heq | Hin]; [done |]).
  by apply elem_of_nil in Hin.
Defined.

(** X24: after [abuild_from_list], [retrieve_from_key] of a text of the
    list returns the embedding that came back at the position of the
    last occurrence of that text. *)
Theorem abuild_from_list_retrieve {Vector Value : Type}
    (self : VectorDatabase.t Vector Value) (list_of_text : list string)
    (embeddings : list Vector) (i : nat) (text : string) (embedding : Vector) :
  list_of_text !! i = Some text →
  embeddings !! i = Some embedding →
  text ∉ drop (S i) list_of_text →
  fst (VectorDatabase.retrieve_from_key
         (VectorDatabase.abuild_from_list self list_of_text embeddings) text)
  = Some embedding.
Proof.
  intros Htext Hemb Hlast. simpl.
  by apply abuild_from_list_last with (i := i).
Qed.

Lemma abuild_from_list_retrieve_witness :
  fst (VectorDatabase.retrieve_from_key
         (VectorDatabase.abuild_from_list sample_store ["x"; "b"; "x"]
            [10; 20; 30]) "x")
  = Some 30.
Proof.
  apply (abuild_from_list_retrieve sample_store ["x"; "b"; "x"] [10; 20; 30]
           2 "x" 30); [done | done |].
  simpl. apply not_elem_of_nil.
Defined.

(** X25: after [abuild_from_list_with_metadata], the record held for the
    text of a chunk is the embedding and the metadata at the position of
    the last chunk with that text. *)
Theorem abuild_from_list_with_metadata_record {Vector Value : Type}
    (self : VectorDatabase.t Vector Value)
    (chunks_with_metadata : list (VectorDatabase.text_chunk Value))
    (embeddings : list Vector) (i : nat)
    (chunk : VectorDatabase.text_chunk Value) (embedding : Vector) :
  chunks_with_metadata !! i = Some chunk →
  embeddings !! i = Some embedding →
  VectorDatabase.chunk_text chunk
    ∉ drop (S i) (VectorDatabase.chunk_texts chunks_with_metadata) →
  record
    (VectorDatabase.abuild_from_list_with_metadata self chunks_with_metadata
       embeddings)
    (VectorDatabase.chunk_text chunk)
  = Some (embedding, Some (VectorDatabase.chunk_metadata chunk)).
Proof.
  intros Hchunk Hemb Hlast. by apply abuild_with_metadata_last with (i := i).
Qed.

Lemma abuild_from_list_with_metadata_record_witness :
  record
    (VectorDatabase.abuild_from_list_with_metadata sample_store sample_chunks
       [10; 20])
    (VectorDatabase.chunk_text sample_chunk_b)
  = Some (20, Some (VectorDatabase.chunk_metadata sample_chunk_b)).
Proof.
  apply (abuild_from_list_with_metadata_record sample_store sample_chunks
           [10; 20] 1 sample_chunk_b 20); [done | done |].
  simpl. apply not_elem_of_nil.
Defined.

(** X26: [abuild_from_list_with_metadata] stores the same vectors, under
    the same keys in the same order, as [abuild_from_list] does for the
    texts of the chunks and the same embeddings. *)
Theorem abuild_from_list_with_metadata_vectors {Vector Value : Type}
    (self : VectorDatabase.t Vector Value)
    (chunks_with_metadata : list (VectorDatabase.text_chunk Value))
    (embeddings : list Vector) :
  VectorDatabase.vectors
    (VectorDatabase.abuild_from_list_with_metadata self chunks_with_metadata
       embeddings)
  = VectorDatabase.vectors
      (VectorDatabase.abuild_from_list self
         (VectorDatabase.chunk_texts chunks_with_metadata) embeddings).
Proof. by apply abuild_with_metadata_vectors. Qed.

(** ** Witnesses for the chunks with metadata *)

Lemma split_texts_with_metadata_texts_witness :
  returns (CharacterTextSplitter.split_texts_with_metadata
             sample_character_splitter sample_texts (Some sample_metadatas))
    (fun out =>
       CharacterTextSplitter.split_texts sample_character_splitter sample_texts
       = Ok (map Chunk.text out))
  ∧ returns (RecursiveTextSplitter.split_texts_with_metadata
               sample_recursive_splitter sample_texts (Some sample_metadatas))
      (fun out =>
         RecursiveTextSplitter.split_texts sample_recursive_splitter sample_texts
         = Ok (map Chunk.text out)).
Proof.
  apply (split_texts_with_metadata_texts sample_character_splitter
           sample_recursive_splitter sample_texts (Some sample_metadatas));
    [simpl; lia | simpl; lia |].
  by intros given [= <-].
Defined.

Lemma split_texts_with_metadata_indexed_witness :
  returns (CharacterTextSplitter.split_texts_with_metadata
             sample_character_splitter sample_texts (Some sample_metadatas))
    (Forall indexed_in_total)
  ∧ returns (RecursiveTextSplitter.split_texts_with_metadata
               sample_recursive_splitter sample_texts (Some sample_metadatas))
      (Forall indexed_in_total).
Proof.
  apply (split_texts_with_metadata_indexed sample_character_splitter
           sample_recursive_splitter sample_texts (Some sample_metadatas));
    [simpl; lia | simpl; lia |].
  by intros given [= <-].
Defined.

Lemma split_texts_with_metadata_provenance_witness :
  returns (CharacterTextSplitter.split_texts_with_metadata
             sample_character_splitter sample_texts (Some sample_metadatas))
    (Forall (comes_from (CharacterTextSplitter.split sample_character_splitter)
               sample_texts sample_metadatas))
  ∧ returns (RecursiveTextSplitter.split_texts_with_metadata
               sample_recursive_splitter sample_texts (Some sample_metadatas))
      (Forall (comes_from (RecursiveTextSplitter.split sample_recursive_splitter)
                 sample_texts sample_metadatas)).
Proof.
  apply (split_texts_with_metadata_provenance sample_character_splitter
           sample_recursive_splitter sample_texts sample_metadatas);
    [simpl; lia | simpl; lia | done].
Defined.

Lemma split_texts_with_metadata_default_source_witness :
  returns (CharacterTextSplitter.split_texts_with_metadata (O := Empty_set)
             sample_character_splitter sample_texts None)
    (Forall (fun c => ∃ (j : nat) text chunks,
               sample_texts !! j = Some text
               ∧ CharacterTextSplitter.split sample_character_splitter text
                 = Ok chunks
               ∧ Chunk.text c ∈ chunks
               ∧ Chunk.metadata c !! "source"
                 = Some (Chunk.PyStr (Chunk.document_name j))))
  ∧ returns (RecursiveTextSplitter.split_texts_with_metadata (O := Empty_set)
               sample_recursive_splitter sample_texts None)
      (Forall (fun c => ∃ (j : nat) text chunks,
                 sample_texts !! j = Some text
                 ∧ RecursiveTextSplitter.split sample_recursive_splitter text
                   = Ok chunks
                 ∧ Chunk.text c ∈ chunks
                 ∧ Chunk.metadata c !! "source"
                   = Some (Chunk.PyStr (Chunk.document_name j)))).
Proof.
  apply (split_texts_with_metadata_default_source (O := Empty_set)
           sample_character_splitter sample_recursive_splitter sample_texts);
    simpl; lia.
Defined.

(** The chunks of the sample texts without metadata, as they come out:
    the sources are document_0 and document_1, and each text numbers its
    own chunks from 0. *)
Example split_texts_with_metadata_sample :
  CharacterTextSplitter.split_texts_with_metadata (O := Empty_set)
    sample_character_splitter [s "abcde"; s "xy"] None
  = Ok [ chunk_of {[ "source" := Chunk.PyStr "document_0" ]}
           [s "abcd"; s "de"] 0 (s "abcd");
         chunk_of {[ "source" := Chunk.PyStr "document_0" ]}
           [s "abcd"; s "de"] 1 (s "de");
         chunk_of {[ "source" := Chunk.PyStr "document_1" ]}
           [s "xy"] 0 (s "xy") ].
Proof. by vm_compute. Qed.
